(** * DCX Planning Coach API: the project step-state store

    A shallow embedding of [dcx-coach-api/app.py] and the properties of its
    four operations ([create_project], [list_projects], [get_project],
    [update_project_steps]).

    Modelling conventions.
    - A Python [str] is a Rocq [string]; each [ascii] stands for one
      character of the text, the one of that code point (U+0000 to U+00FF).
      A text that reaches the database is at most 10^9 bytes long in UTF-8,
      the longest value SQLite stores; the one text that the code builds,
      the search pattern, is checked against that limit in the model.
    - [Optional[str]] is [option string]; a Python [dict] with string keys is
      a [gmap string _].  A dict of optional strings therefore has lookups of
      type [option (option string)]: [None] is "key not present",
      [Some None] is "key present, value [None]".
    - The [projects] table is a [gmap string Project] indexed by the primary
      key [project_id]; the operations store a row under its own
      [project_id] (lemma [reachable_primary_key]).
    - [datetime] values are integers (a point on the time line).  The two
      sources of outside input, [now_utc()] and [gen_project_id()], are
      arguments of the operations that call them.
    - Every endpoint is a function from the request and the table to a
      [result] and (for the writing endpoints) the table after the call.  The
      constraints that pydantic / FastAPI check on the declared parameter
      types ([Field(pattern=..)], [Field(ge=.., le=..)], [Query(..)]) are the
      first step of the endpoint and answer [ValidationError]. *)

From stdpp Require Import base gmap strings list fin_maps sorting.
From Stdlib Require Import ZArith Ascii Lia.

Local Open Scope Z_scope.

(** ** Errors and results *)

Inductive error : Type :=
| ValidationError   (* 422: a declared field or query constraint is violated *)
| NotFoundError     (* 404: HTTPException(status_code=404) *)
| IntegrityError    (* the commit hits the primary-key constraint *)
| OperationalError  (* the engine stops the statement *)
| DataError.        (* the engine refuses a value of the statement *)

Inductive result (A : Type) : Type :=
| Ok (a : A)
| Err (e : error).
Arguments Ok {A} a.
Arguments Err {A} e.

#[global] Instance error_eq_dec : EqDecision error.
Proof. solve_decision. Defined.

(** ** The table row ([class Project(Base)]) *)

Record Project : Type := mkProject {
  project_id  : string;
  title       : string;
  mode        : string;
  description : option string;
  last_step   : Z;
  step0       : option string;
  step1       : option string;
  step2       : option string;
  step3       : option string;
  step4       : option string;
  step5       : option string;
  created_at  : Z;
  updated_at  : Z
}.

(** ** Schemas *)

Record CreateProjectRequest : Type := mkCreateProjectRequest {
  req_title       : string;
  req_mode        : string;
  req_description : option string
}.

Record CreateProjectResponse : Type := mkCreateProjectResponse {
  resp_project_id : string
}.

Record ProjectListItem : Type := mkProjectListItem {
  item_project_id : string;
  item_title      : string;
  item_mode       : string;
  item_last_step  : Z;
  item_updated_at : Z
}.

Record ProjectDetail : Type := mkProjectDetail {
  detail_project_id  : string;
  detail_title       : string;
  detail_mode        : string;
  detail_description : option string;
  detail_last_step   : Z;
  detail_steps       : gmap string (option string)
}.

Record UpdateProjectStepsRequest : Type := mkUpdateProjectStepsRequest {
  req_last_step : option Z;
  req_steps     : option (gmap string (option string))
}.

Inductive UpdateStatus : Type := updated.

(** [pattern="^(contest|education|startup)$"]: the whole string is one of the
    three alternatives. *)
Definition valid_mode (m : string) : Prop :=
  m = "contest" ∨ m = "education" ∨ m = "startup".

Definition mode_pattern (m : string) : bool := bool_decide (valid_mode m).

(** [CreateProjectRequest]: [title: str] carries no constraint, [mode] carries
    the pattern. *)
Definition CreateProjectRequest_valid (req : CreateProjectRequest) : bool :=
  mode_pattern (req_mode req).

(** [last_step: Optional[int] = Field(default=None, ge=0, le=5)]. *)
Definition UpdateProjectStepsRequest_valid (req : UpdateProjectStepsRequest) : bool :=
  match req_last_step req with
  | None => true
  | Some n => (0 <=? n) && (n <=? 5)
  end.

(** The query parameters of [list_projects]: [mode] with the pattern, and
    [limit] with [ge=1, le=200]; an omitted [limit] is [None] here and takes
    the default 50. *)
Definition list_params_valid (md : option string) (limit : option Z) : bool :=
  match md with None => true | Some m => mode_pattern m end
  && match limit with None => true | Some n => (1 <=? n) && (n <=? 200) end.

Definition limit_default : Z := 50.

(** ** Python truthiness, as used by the [if query:], [if mode:],
    [if req.steps:] tests *)

Definition truthy_str (s : string) : bool :=
  match s with EmptyString => false | String _ _ => true end.

Definition truthy_dict {V} (d : gmap string V) : bool :=
  negb (bool_decide (d = ∅)).

(** ** Step schema *)

Definition allowed : gset string :=
  {[ "step0"; "step1"; "step2"; "step3"; "step4"; "step5" ]}.

(** [{k: steps[k] for k in steps.keys() if k in allowed}] *)
Definition normalize_steps (steps : gmap string (option string))
  : gmap string (option string) :=
  filter (λ kv, kv.1 ∈ allowed) steps.

(** [get_steps_dict]: the dict literal with the six keys. *)
Definition get_steps_dict (p : Project) : gmap string (option string) :=
  <["step0" := step0 p]>
  (<["step1" := step1 p]>
  (<["step2" := step2 p]>
  (<["step3" := step3 p]>
  (<["step4" := step4 p]>
  (<["step5" := step5 p]> ∅))))).

(** ** Attribute assignment on a row

    [setattr(p, k, v)] for the attribute names that reach it in
    [update_project_steps], i.e. the keys that [normalize_steps] lets
    through (lemma [normalize_steps_keys] below): the six step columns.  A
    name that is no column of the row leaves every column as it is. *)
Definition setattr (p : Project) (k : string) (v : option string) : Project :=
  if decide (k = "step0") then
    mkProject (project_id p) (title p) (mode p) (description p) (last_step p)
      v (step1 p) (step2 p) (step3 p) (step4 p) (step5 p)
      (created_at p) (updated_at p)
  else if decide (k = "step1") then
    mkProject (project_id p) (title p) (mode p) (description p) (last_step p)
      (step0 p) v (step2 p) (step3 p) (step4 p) (step5 p)
      (created_at p) (updated_at p)
  else if decide (k = "step2") then
    mkProject (project_id p) (title p) (mode p) (description p) (last_step p)
      (step0 p) (step1 p) v (step3 p) (step4 p) (step5 p)
      (created_at p) (updated_at p)
  else if decide (k = "step3") then
    mkProject (project_id p) (title p) (mode p) (description p) (last_step p)
      (step0 p) (step1 p) (step2 p) v (step4 p) (step5 p)
      (created_at p) (updated_at p)
  else if decide (k = "step4") then
    mkProject (project_id p) (title p) (mode p) (description p) (last_step p)
      (step0 p) (step1 p) (step2 p) (step3 p) v (step5 p)
      (created_at p) (updated_at p)
  else if decide (k = "step5") then
    mkProject (project_id p) (title p) (mode p) (description p) (last_step p)
      (step0 p) (step1 p) (step2 p) (step3 p) (step4 p) v
      (created_at p) (updated_at p)
  else p.

Definition set_last_step (p : Project) (n : Z) : Project :=
  mkProject (project_id p) (title p) (mode p) (description p) n
    (step0 p) (step1 p) (step2 p) (step3 p) (step4 p) (step5 p)
    (created_at p) (updated_at p).

Definition set_updated_at (p : Project) (t : Z) : Project :=
  mkProject (project_id p) (title p) (mode p) (description p) (last_step p)
    (step0 p) (step1 p) (step2 p) (step3 p) (step4 p) (step5 p)
    (created_at p) t.

(** [for k, v in steps.items(): setattr(p, k, v)] *)
Definition setattr_items (p : Project) (steps : gmap string (option string))
  : Project :=
  map_fold (λ k v acc, setattr acc k v) p steps.

(** ** The endpoints *)

(** [POST /projects].  [pid] is the value of [gen_project_id()], [t_created]
    and [t_updated] the values of the two [now_utc()] calls.  [db.add(p);
    db.commit()] inserts the row; a [project_id] already in the table makes
    the commit fail on the primary key and nothing is written. *)
Definition create_project (pid : string) (t_created t_updated : Z)
    (req : CreateProjectRequest) (db : gmap string Project)
  : result CreateProjectResponse * gmap string Project :=
  if negb (CreateProjectRequest_valid req) then (Err ValidationError, db)
  else
    let p := mkProject pid (req_title req) (req_mode req) (req_description req)
               0 None None None None None None t_created t_updated in
    match db !! pid with
    | Some _ => (Err IntegrityError, db)
    | None => (Ok (mkCreateProjectResponse pid), <[pid := p]> db)
    end.

(** [GET /projects/{project_id}] *)
Definition get_project (pid : string) (db : gmap string Project)
  : result ProjectDetail :=
  match db !! pid with
  | None => Err NotFoundError
  | Some p =>
      Ok (mkProjectDetail (project_id p) (title p) (mode p) (description p)
            (last_step p) (get_steps_dict p))
  end.

(** The writes of [update_project_steps] on the row it has loaded (from
    [if req.last_step is not None:] to [p.updated_at = now_utc()]). *)
Definition patch_row (now : Z) (req : UpdateProjectStepsRequest) (p : Project)
  : Project :=
  let p1 := match req_last_step req with
            | Some n => set_last_step p n
            | None => p
            end in
  let p2 := match req_steps req with
            | Some steps =>
                if truthy_dict steps
                then setattr_items p1 (normalize_steps steps)
                else p1
            | None => p1
            end in
  set_updated_at p2 now.

(** [PATCH /projects/{project_id}].  [now] is the value of [now_utc()]. *)
Definition update_project_steps (pid : string) (now : Z)
    (req : UpdateProjectStepsRequest) (db : gmap string Project)
  : result UpdateStatus * gmap string Project :=
  if negb (UpdateProjectStepsRequest_valid req) then (Err ValidationError, db)
  else
    match db !! pid with
    | None => (Err NotFoundError, db)
    | Some p => (Ok updated, <[pid := patch_row now req p]> db)
    end.

(** ** The title filter: SQL [LIKE] as the SQLite engine evaluates it

    [Project.title.like(like)] is the SQL operator [title LIKE ?] with no
    [ESCAPE] clause, run on the SQLite database of [DATABASE_URL].

    [like] is the comparison itself, of a pattern with a text: [%] matches
    any run of characters (the empty one too), [_] matches exactly one
    character, and any other character matches itself, where SQLite
    compares the ASCII letters without regard to case.  The engine applies
    it to the pattern and the text read as C strings ([c_string]), and only
    to a pattern within its length limit ([sqlite_like]). *)

Definition ascii_tolower (c : ascii) : ascii :=
  let n := N_of_ascii c in
  if ((65 <=? n) && (n <=? 90))%N then ascii_of_N (n + 32) else c.

Fixpoint str_tolower (s : string) : string :=
  match s with
  | EmptyString => EmptyString
  | String c s' => String (ascii_tolower c) (str_tolower s')
  end.

Fixpoint like (pat txt : string) : bool :=
  match pat with
  | EmptyString =>
      match txt with EmptyString => true | String _ _ => false end
  | String c pat' =>
      if Ascii.eqb c "%" then
        (fix skip (t : string) : bool :=
           like pat' t ||
           match t with
           | EmptyString => false
           | String _ t' => skip t'
           end) txt
      else
        match txt with
        | EmptyString => false
        | String d txt' =>
            (Ascii.eqb c "_" || Ascii.eqb (ascii_tolower c) (ascii_tolower d))
            && like pat' txt'
        end
  end.

(** [like = f"%{query}%"] *)
Definition like_pattern (query : string) : string :=
  "%" +:+ query +:+ "%".

Definition NUL : ascii := Ascii.zero.

(** A text as the comparison reads it: up to its first U+0000. *)
Fixpoint c_string (s : string) : string :=
  match s with
  | EmptyString => EmptyString
  | String c s' =>
      if Ascii.eqb c NUL then EmptyString else String c (c_string s')
  end.

Fixpoint nul_free (s : string) : bool :=
  match s with
  | EmptyString => true
  | String c s' => negb (Ascii.eqb c NUL) && nul_free s'
  end.

(** The length of a text in bytes (UTF-8): one byte for an ASCII
    character, two for the other characters of the alphabet. *)
Definition utf8_size (c : ascii) : Z :=
  if (N_of_ascii c <? 128)%N then 1 else 2.

Fixpoint utf8_bytes (s : string) : Z :=
  match s with
  | EmptyString => 0
  | String c s' => utf8_size c + utf8_bytes s'
  end.

(** The limits of the engine, at their default values. *)
Definition SQLITE_MAX_LENGTH : Z := 1000000000.
Definition SQLITE_MAX_LIKE_PATTERN_LENGTH : Z := 50000.

(** Binding a text to a parameter of a statement: a text over the length
    limit is refused ("string or blob too big"). *)
Definition bind_text (s : string) : result string :=
  if SQLITE_MAX_LENGTH <? utf8_bytes s then Err DataError else Ok s.

(** The SQL function behind [LIKE], on the values of one row: a pattern
    over the pattern limit stops the statement ("LIKE or GLOB pattern too
    complex"), whatever it holds; otherwise pattern and text are compared
    as C strings. *)
Definition sqlite_like (pat txt : string) : result bool :=
  if SQLITE_MAX_LIKE_PATTERN_LENGTH <? utf8_bytes pat
  then Err OperationalError
  else Ok (like (c_string pat) (c_string txt)).

(** The test of a title against a query, when the engine makes it. *)
Definition title_test (query ttl : string) : bool :=
  like (c_string (like_pattern query)) (c_string ttl).

(** ** Listing *)

(** [order_by(Project.updated_at.desc())]: [a] may come before [b]. *)
Definition updated_desc (a b : Project) : Prop := updated_at b <= updated_at a.

#[global] Instance updated_desc_dec : RelDecision updated_desc.
Proof. intros a b. unfold updated_desc. apply _. Defined.

Definition to_list_item (r : Project) : ProjectListItem :=
  mkProjectListItem (project_id r) (title r) (mode r) (last_step r)
    (updated_at r).

(** [db.query(Project)]: the rows of the table. *)
Definition all_rows (db : gmap string Project) : list Project :=
  (map_to_list db).*2.

(** The scan of a [WHERE] test over the rows: the first row on which the
    test stops the statement ends the scan. *)
Fixpoint filter_where {A} (test : A → result bool) (rows : list A)
  : result (list A) :=
  match rows with
  | [] => Ok []
  | r :: rows' =>
      match test r with
      | Err e => Err e
      | Ok b =>
          match filter_where test rows' with
          | Err e => Err e
          | Ok sel => Ok (if b then r :: sel else sel)
          end
      end
  end.

(** The rows that pass the [if query:] and [if mode:] filters.  The title
    test comes first in the [WHERE] clause, so it is made on every row of
    the table; the comparison of the mode cannot fail. *)
Definition apply_filters (query md : option string) (rows : list Project)
  : result (list Project) :=
  let q1 := match query with
            | Some s =>
                if truthy_str s
                then
                  match bind_text (like_pattern s) with
                  | Err e => Err e
                  | Ok pat => filter_where (λ r, sqlite_like pat (title r)) rows
                  end
                else Ok rows
            | None => Ok rows
            end in
  match q1 with
  | Err e => Err e
  | Ok q1 =>
      Ok match md with
         | Some m => if truthy_str m then filter (λ r, mode r = m) q1 else q1
         | None => q1
         end
  end.

(** [GET /projects].  The engine's order among rows of equal [updated_at]
    is not fixed by the query; the model sorts the rows of the table with a
    merge sort. *)
Definition list_projects (query md : option string) (limit : option Z)
    (db : gmap string Project) : result (list ProjectListItem) :=
  if negb (list_params_valid md limit) then Err ValidationError
  else
    match apply_filters query md (all_rows db) with
    | Err e => Err e
    | Ok q =>
        let rows := take (Z.to_nat (default limit_default limit))
                      (merge_sort updated_desc q) in
        Ok (to_list_item <$> rows)
    end.

(** The length in bytes of the pattern that a request makes the engine
    read: none without a query, or with an empty one. *)
Definition pattern_bytes (query : option string) : Z :=
  match query with
  | Some s => if truthy_str s then utf8_bytes (like_pattern s) else 0
  | None => 0
  end.

(** ** Containment as the specification words it

    "title contains text_query as a case-sensitive substring". *)

Fixpoint starts_with (q t : string) : bool :=
  match q, t with
  | EmptyString, _ => true
  | String _ _, EmptyString => false
  | String a q', String b t' => Ascii.eqb a b && starts_with q' t'
  end.

Fixpoint contains (q t : string) : bool :=
  starts_with q t ||
  match t with
  | EmptyString => false
  | String _ t' => contains q t'
  end.

(** The characters of a string that [LIKE] reads as wild cards. *)
Fixpoint wildcard_free (q : string) : bool :=
  match q with
  | EmptyString => true
  | String c q' =>
      negb (Ascii.eqb c "%") && negb (Ascii.eqb c "_") && wildcard_free q'
  end.

(** ** Reachable tables

    The table starts empty and is written by [create_project] and
    [update_project_steps] only; a call that fails hands the table back. *)
Inductive reachable : gmap string Project → Prop :=
| reach_init : reachable ∅
| reach_create pid t_created t_updated req db :
    reachable db →
    reachable (create_project pid t_created t_updated req db).2
| reach_update pid now req db :
    reachable db →
    reachable (update_project_steps pid now req db).2.

(** The columns that [setattr] on a step name never writes. *)
Definition same_header (p q : Project) : Prop :=
  project_id p = project_id q ∧ title p = title q ∧ mode p = mode q
  ∧ description p = description q ∧ last_step p = last_step q
  ∧ created_at p = created_at q ∧ updated_at p = updated_at q.

(** The two selection tests of [list_projects], as predicates on a row. *)
Definition title_matches (query : option string) (p : Project) : Prop :=
  match query with
  | Some s => title_test s (title p) = true
  | None => True
  end.

Definition mode_matches (md : option string) (p : Project) : Prop :=
  match md with
  | Some m => mode p = m
  | None => True
  end.

#[global] Instance title_matches_dec query p : Decision (title_matches query p).
Proof. destruct query; simpl; apply _. Defined.

#[global] Instance mode_matches_dec md p : Decision (mode_matches md p).
Proof. destruct md; simpl; apply _. Defined.

(** ** Sample data for the worked instances *)

Definition row_A : Project :=
  mkProject "p1" "Alpha Plan" "contest" None 0
    (Some "A") None None None None None 10 10.

Definition db_A : gmap string Project := {[ "p1" := row_A ]}.

Definition patch_step1 : UpdateProjectStepsRequest :=
  mkUpdateProjectStepsRequest None (Some {[ "step1" := Some "B" ]}).

Definition patch_stepX : UpdateProjectStepsRequest :=
  mkUpdateProjectStepsRequest (Some 2)
    (Some (<["stepX" := Some "ignored"]> {[ "step2" := Some "C" ]})).

Definition patch_nothing : UpdateProjectStepsRequest :=
  mkUpdateProjectStepsRequest None None.

Definition create_alpha : CreateProjectRequest :=
  mkCreateProjectRequest "Alpha Plan" "contest" (Some "first draft").

Definition row_B : Project :=
  mkProject "p2" "Beta Plan" "education" None 0
    None None None None None None 15 25.

Definition db_AB : gmap string Project := <["p2" := row_B]> db_A.

(** ** Runs of the service *)

(** [evolves db db']: the table [db'] comes from [db] by [create_project]
    and [update_project_steps] calls. *)
Inductive evolves (db : gmap string Project) : gmap string Project → Prop :=
| evolves_refl : evolves db db
| evolves_create pid t_created t_updated req db' :
    evolves db db' →
    evolves db (create_project pid t_created t_updated req db').2
| evolves_update pid now req db' :
    evolves db db' →
    evolves db (update_project_steps pid now req db').2.

(** [clocked t db]: [db] is reached from the empty table by calls whose
    [now_utc()] readings never go back, [t] being the last reading. *)
Inductive clocked : Z → gmap string Project → Prop :=
| clocked_init t : clocked t ∅
| clocked_create t pid t_created t_updated req db :
    clocked t db → t <= t_created → t_created <= t_updated →
    clocked t_updated (create_project pid t_created t_updated req db).2
| clocked_update t pid now req db :
    clocked t db → t <= now →
    clocked now (update_project_steps pid now req db).2.

(** One payload that stands for [req1] followed by [req2]: the later
    [last_step] and, slot by slot, the later submitted value. *)
Definition merge_patches (req1 req2 : UpdateProjectStepsRequest)
  : UpdateProjectStepsRequest :=
  mkUpdateProjectStepsRequest
    (match req_last_step req2 with
     | Some n => Some n
     | None => req_last_step req1
     end)
    (Some (default ∅ (req_steps req2) ∪ default ∅ (req_steps req1))).

(** ** The clients service ([app11.py]) and its loader
    ([change_csv_sqlite31.py])

    A table is the list of its rows in the order of the scan.
    [select(clients).offset(skip).limit(limit)] is [LIMIT limit OFFSET skip]
    on SQLite: a negative [OFFSET] counts as 0 and a negative [LIMIT] puts
    no bound on the number of rows. *)

Definition sql_limit_offset {A} (limit offset : Z) (rows : list A) : list A :=
  let rest := drop (Z.to_nat offset) rows in
  if limit <? 0 then rest else take (Z.to_nat limit) rest.

(** The integers that SQLite takes as a statement parameter: 64 bits,
    signed. *)
Definition sqlite_integer (n : Z) : bool :=
  (- 2 ^ 63 <=? n) && (n <? 2 ^ 63).

(** [read_all_clients]: [skip] and [limit] are any integers of the request
    (no bound is declared); the statement runs when both can be bound, and
    the call fails ([None]) otherwise.  The answer is the rows as they come,
    [data = [dict(row._mapping) for row in result]]. *)
Definition read_all_clients {A} (skip limit : Z) (clients : list A)
  : option (list A) :=
  if sqlite_integer skip && sqlite_integer limit
  then Some (sql_limit_offset limit skip clients)
  else None.

(** [df.insert(0, "id", range(1, len(df) + 1))]: a new first column with
    the numbers from 1 on; pandas refuses the insertion ([None] here) when
    the frame has a column of that name already.  A row of the result is
    the id followed by the row of the file. *)
Definition insert_id_column {A} (columns : list string) (rows : list A)
  : option (list string * list (Z * A)) :=
  if decide ("id" ∈ columns) then None
  else Some ("id" :: columns,
             zip (Z.of_nat <$> seq 1 (length rows)) rows).

(** [df.to_sql("clients", conn, if_exists="replace", index=False)]: when
    the engine takes the frame, its rows become the table, whatever the
    table was.  Whether the engine takes a frame (column names that differ
    in more than the case of letters, no more columns than a table may
    have, cells of a kind it stores) is decided outside this code: it is
    the argument [to_sql_accepts].  [None] is a script that stops on an
    exception; what the database holds then is not modelled. *)
Definition load_clients {A}
    (to_sql_accepts : list string → list (Z * A) → bool)
    (columns : list string) (rows : list A) (clients : list (Z * A))
  : option (list (Z * A)) :=
  match insert_id_column columns rows with
  | None => None
  | Some (columns', rows') =>
      if to_sql_accepts columns' rows' then Some rows' else None
  end.

(** A project whose title is the one character U+0000. *)
Definition row_nul : Project :=
  mkProject "p3" (String NUL "") "startup" None 0
    None None None None None None 5 5.

Definition db_nul : gmap string Project := {[ "p3" := row_nul ]}.

(** A file of one column and five rows, for the worked instances. *)
Definition csv_columns : list string := ["name"].

Definition csv_rows : list string := ["ann"; "bob"; "cyd"; "dan"; "eve"].

(** * Properties *)

(** ** Step schema *)

Lemma elem_of_allowed (k : string) :
  k ∈ allowed ↔
  k = "step0" ∨ k = "step1" ∨ k = "step2" ∨ k = "step3" ∨ k = "step4"
  ∨ k = "step5".
Proof. unfold allowed. rewrite !elem_of_union, !elem_of_singleton. tauto. Qed.

Lemma normalize_steps_lookup (steps : gmap string (option string)) (k : string) :
  normalize_steps steps !! k = if decide (k ∈ allowed) then steps !! k else None.
Proof.
  unfold normalize_steps. case_decide as Hk.
  - destruct (steps !! k) as [v|] eqn:E.
    + apply map_lookup_filter_Some. by split.
    + apply map_lookup_filter_None. left. done.
  - apply map_lookup_filter_None. right. intros v _. simpl. done.
Qed.

Lemma normalize_steps_keys (steps : gmap string (option string)) k v :
  normalize_steps steps !! k = Some v → k ∈ allowed.
Proof. rewrite normalize_steps_lookup. case_decide; [done | discriminate]. Qed.

Lemma dom_get_steps_dict (p : Project) : dom (get_steps_dict p) = allowed.
Proof.
  unfold get_steps_dict. apply set_eq. intros k.
  rewrite elem_of_allowed, !dom_insert_L, dom_empty_L.
  rewrite !elem_of_union, !elem_of_singleton, elem_of_empty. tauto.
Qed.

Lemma get_steps_dict_lookup (p : Project) (k : string) :
  get_steps_dict p !! k =
    if decide (k = "step0") then Some (step0 p)
    else if decide (k = "step1") then Some (step1 p)
    else if decide (k = "step2") then Some (step2 p)
    else if decide (k = "step3") then Some (step3 p)
    else if decide (k = "step4") then Some (step4 p)
    else if decide (k = "step5") then Some (step5 p)
    else None.
Proof.
  unfold get_steps_dict.
  repeat (case_decide; [subst k; by simplify_map_eq |]).
  by simplify_map_eq.
Qed.

(** [setattr] column by column. *)
Lemma setattr_columns (p : Project) k v :
  setattr p k v =
    mkProject (project_id p) (title p) (mode p) (description p) (last_step p)
      (if decide (k = "step0") then v else step0 p)
      (if decide (k = "step1") then v else step1 p)
      (if decide (k = "step2") then v else step2 p)
      (if decide (k = "step3") then v else step3 p)
      (if decide (k = "step4") then v else step4 p)
      (if decide (k = "step5") then v else step5 p)
      (created_at p) (updated_at p).
Proof.
  unfold setattr. destruct p; simpl.
  destruct (decide (k = "step0")) as [-> | ?]; [reflexivity |].
  destruct (decide (k = "step1")) as [-> | ?]; [reflexivity |].
  destruct (decide (k = "step2")) as [-> | ?]; [reflexivity |].
  destruct (decide (k = "step3")) as [-> | ?]; [reflexivity |].
  destruct (decide (k = "step4")) as [-> | ?]; [reflexivity |].
  destruct (decide (k = "step5")) as [-> | ?]; reflexivity.
Qed.

(** Assigning two different attributes in either order gives the same row. *)
Lemma setattr_comm (p : Project) k1 v1 k2 v2 :
  k1 ≠ k2 → setattr (setattr p k2 v2) k1 v1 = setattr (setattr p k1 v1) k2 v2.
Proof.
  intros Hne. rewrite !setattr_columns. simpl.
  f_equal; repeat case_decide; congruence.
Qed.

Lemma setattr_items_empty (p : Project) : setattr_items p ∅ = p.
Proof. unfold setattr_items. apply map_fold_empty. Qed.

Lemma setattr_items_insert (p : Project) k v (m : gmap string (option string)) :
  m !! k = None →
  setattr_items p (<[k := v]> m) = setattr (setattr_items p m) k v.
Proof.
  intros Hk. unfold setattr_items.
  apply (map_fold_insert_L (λ k v acc, setattr acc k v)); [| done].
  intros j1 j2 z1 z2 y Hne _ _. by apply setattr_comm.
Qed.

Lemma setattr_header (p : Project) k v : same_header (setattr p k v) p.
Proof. rewrite setattr_columns. unfold same_header. simpl. tauto. Qed.

Lemma setattr_items_header (p : Project) (m : gmap string (option string)) :
  same_header (setattr_items p m) p.
Proof.
  induction m as [|k v m Hk IH] using map_ind.
  - rewrite setattr_items_empty. unfold same_header. tauto.
  - rewrite setattr_items_insert by done.
    pose proof (setattr_header (setattr_items p m) k v) as H.
    unfold same_header in *. intuition congruence.
Qed.

Lemma get_steps_dict_setattr (p : Project) k v j :
  k ∈ allowed →
  get_steps_dict (setattr p k v) !! j =
    if decide (j = k) then Some v else get_steps_dict p !! j.
Proof.
  intros Hk%elem_of_allowed. rewrite !get_steps_dict_lookup.
  unfold setattr.
  destruct Hk as [-> | [-> | [-> | [-> | [-> | ->]]]]]; simpl;
    repeat case_decide; simplify_eq; reflexivity.
Qed.

(** The merge, slot by slot: a slot named in [m] takes the value of [m], any
    other slot keeps its value. *)
Lemma get_steps_dict_setattr_items (p : Project)
    (m : gmap string (option string)) (j : string) :
  (∀ k v, m !! k = Some v → k ∈ allowed) →
  get_steps_dict (setattr_items p m) !! j =
    match m !! j with
    | Some v => if decide (j ∈ allowed) then Some v else None
    | None => get_steps_dict p !! j
    end.
Proof.
  induction m as [|k v m Hk IH] using map_ind; intros Hall.
  - rewrite setattr_items_empty, lookup_empty. done.
  - rewrite setattr_items_insert by done.
    assert (k ∈ allowed) as Hka by (apply (Hall k v), lookup_insert_eq).
    rewrite get_steps_dict_setattr by done.
    destruct (decide (j = k)) as [-> | Hne].
    + rewrite lookup_insert_eq. by rewrite decide_True.
    + rewrite lookup_insert_ne by done. apply IH.
      intros k' v' Hk'. apply (Hall k' v').
      rewrite lookup_insert_ne; [done |]. intros ->. congruence.
Qed.

(** Two rows are equal when their scalar columns and their step mappings
    are. *)
Lemma Project_ext (p q : Project) :
  same_header p q →
  (∀ k, get_steps_dict p !! k = get_steps_dict q !! k) →
  p = q.
Proof.
  intros (H1 & H2 & H3 & H4 & H5 & H6 & H7) Hs.
  pose proof (Hs "step0") as E0. pose proof (Hs "step1") as E1.
  pose proof (Hs "step2") as E2. pose proof (Hs "step3") as E3.
  pose proof (Hs "step4") as E4. pose proof (Hs "step5") as E5.
  rewrite !get_steps_dict_lookup in E0, E1, E2, E3, E4, E5.
  destruct p, q; simpl in *. simplify_eq. reflexivity.
Qed.

(** ** The writes of an update on one row *)

Section patch_row.
  Context (now : Z) (req : UpdateProjectStepsRequest) (p : Project).

Lemma patch_row_header :
  project_id (patch_row now req p) = project_id p
  ∧ title (patch_row now req p) = title p
  ∧ mode (patch_row now req p) = mode p
  ∧ description (patch_row now req p) = description p
  ∧ created_at (patch_row now req p) = created_at p
  ∧ updated_at (patch_row now req p) = now
  ∧ last_step (patch_row now req p) = default (last_step p) (req_last_step req).
Proof.
  unfold patch_row.
  set (p1 := match req_last_step req with
             | Some n => set_last_step p n | None => p end).
  assert (project_id p1 = project_id p ∧ title p1 = title p ∧ mode p1 = mode p
          ∧ description p1 = description p ∧ created_at p1 = created_at p
          ∧ last_step p1 = default (last_step p) (req_last_step req)) as Hh.
  { subst p1. destruct (req_last_step req); simpl; tauto. }
  set (p2 := match req_steps req with
             | Some steps => if truthy_dict steps
                             then setattr_items p1 (normalize_steps steps)
                             else p1
             | None => p1 end).
  assert (same_header p2 p1) as H21.
  { subst p2. destruct (req_steps req) as [steps|].
    - destruct (truthy_dict steps).
      + apply setattr_items_header.
      + unfold same_header; tauto.
    - unfold same_header; tauto. }
  unfold same_header in H21. simpl. intuition congruence.
Qed.

Lemma patch_row_steps (k : string) :
  get_steps_dict (patch_row now req p) !! k =
    match normalize_steps (default ∅ (req_steps req)) !! k with
    | Some v => Some v
    | None => get_steps_dict p !! k
    end.
Proof.
  unfold patch_row.
  set (p1 := match req_last_step req with
             | Some n => set_last_step p n | None => p end).
  assert (get_steps_dict p1 = get_steps_dict p) as E1.
  { subst p1. by destruct (req_last_step req). }
  change (get_steps_dict (set_updated_at ?x now)) with (get_steps_dict x).
  rewrite <- E1. clearbody p1.
  destruct (req_steps req) as [steps|]; simpl.
  - unfold truthy_dict. case_bool_decide as Hemp; simpl.
    + subst steps. unfold normalize_steps.
      rewrite map_filter_empty, lookup_empty. done.
    + rewrite get_steps_dict_setattr_items
        by (intros k' v'; apply normalize_steps_keys).
      destruct (normalize_steps steps !! k) as [v|] eqn:E; [| done].
      apply normalize_steps_keys in E. by rewrite decide_True.
  - unfold normalize_steps. rewrite map_filter_empty, lookup_empty. done.
Qed.

End patch_row.

Lemma update_project_steps_found pid now req db p :
  UpdateProjectStepsRequest_valid req = true →
  db !! pid = Some p →
  update_project_steps pid now req db
  = (Ok updated, <[pid := patch_row now req p]> db).
Proof. intros Hv Hp. unfold update_project_steps. by rewrite Hv, Hp. Qed.

Lemma update_project_steps_error pid now req db e :
  (update_project_steps pid now req db).1 = Err e →
  (update_project_steps pid now req db).2 = db.
Proof.
  unfold update_project_steps.
  destruct (UpdateProjectStepsRequest_valid req); simpl; [| done].
  destruct (db !! pid); simpl; [discriminate | done].
Qed.

(** ** Partial update *)



(** The isolation example of the specification, evaluated. *)
Example update_step1_keeps_step0 :
  get_project "p1" (update_project_steps "p1" 20 patch_step1 db_A).2
  = Ok (mkProjectDetail "p1" "Alpha Plan" "contest" None 0
          (get_steps_dict
             (mkProject "p1" "Alpha Plan" "contest" None 0
                (Some "A") (Some "B") None None None None 10 20))).
Proof. vm_compute. reflexivity. Qed.

(** ** Not found *)

(** C5. [get_project] signals [NotFoundError] exactly when the id is not in
    the table, and so does an accepted [update_project_steps] call; an
    [update_project_steps] call that fails leaves the table as it was. *)
Theorem not_found_iff_absent pid now req db :
  (get_project pid db = Err NotFoundError ↔ db !! pid = None)
  ∧ (UpdateProjectStepsRequest_valid req = true →
     ((update_project_steps pid now req db).1 = Err NotFoundError
      ↔ db !! pid = None))
  ∧ (∀ e, (update_project_steps pid now req db).1 = Err e →
          (update_project_steps pid now req db).2 = db).
Proof.
  split; [| split].
  - unfold get_project. destruct (db !! pid); split; done.
  - intros Hv. unfold update_project_steps. rewrite Hv. simpl.
    destruct (db !! pid); split; done.
  - intros e. apply update_project_steps_error.
Qed.

Lemma not_found_iff_absent_witness :
  UpdateProjectStepsRequest_valid patch_stepX = true
  ∧ (update_project_steps "nonexistent-id" 20 patch_stepX db_A).1
    = Err NotFoundError
  ∧ (update_project_steps "nonexistent-id" 20 patch_stepX db_A).2 = db_A
  ∧ get_project "nonexistent-id" db_A = Err NotFoundError.
Proof.
  destruct (not_found_iff_absent "nonexistent-id" 20 patch_stepX db_A)
    as (Hg & Hu & Hs).
  assert (db_A !! "nonexistent-id" = None) as Habs by reflexivity.
  assert (UpdateProjectStepsRequest_valid patch_stepX = true) as Hv
    by reflexivity.
  split; [exact Hv |]. split; [exact (proj2 (Hu Hv) Habs) |].
  split; [exact (Hs NotFoundError (proj2 (Hu Hv) Habs)) |].
  exact (proj2 Hg Habs).
Defined.

(** ** Frame of an update *)

(** C7. A successful [update_project_steps] call replaces one row, keeps its
    [project_id], [title], [mode], [description] and [created_at], and sets
    its [updated_at] to the current time; with neither [last_step] nor
    [steps] supplied the call on an existing project succeeds and changes
    [updated_at] only. *)
Theorem update_project_steps_frame pid now req db :
  (∀ db', update_project_steps pid now req db = (Ok updated, db') →
     ∃ p p', db !! pid = Some p ∧ db' = <[pid := p']> db
       ∧ project_id p' = project_id p ∧ title p' = title p
       ∧ mode p' = mode p ∧ description p' = description p
       ∧ created_at p' = created_at p ∧ updated_at p' = now)
  ∧ (∀ p, db !! pid = Some p →
       update_project_steps pid now (mkUpdateProjectStepsRequest None None) db
       = (Ok updated,
          <[pid := mkProject (project_id p) (title p) (mode p) (description p)
                     (last_step p) (step0 p) (step1 p) (step2 p) (step3 p)
                     (step4 p) (step5 p) (created_at p) now]> db)).
Proof.
  split.
  - intros db'. unfold update_project_steps.
    destruct (UpdateProjectStepsRequest_valid req); simpl; [| discriminate].
    destruct (db !! pid) as [p|]; [| discriminate].
    intros [= <-]. exists p, (patch_row now req p).
    destruct (patch_row_header now req p) as (? & ? & ? & ? & ? & ? & _).
    tauto.
  - intros p Hp. unfold update_project_steps. simpl. by rewrite Hp.
Qed.

Lemma update_project_steps_frame_witness :
  db_A !! "p1" = Some row_A
  ∧ update_project_steps "p1" 20 patch_nothing db_A
    = (Ok updated,
       <["p1" := mkProject "p1" "Alpha Plan" "contest" None 0
                   (Some "A") None None None None None 10 20]> db_A).
Proof.
  split; [reflexivity |].
  exact (proj2 (update_project_steps_frame "p1" 20 patch_nothing db_A)
           row_A eq_refl).
Defined.

(** ** Idempotence *)

(** Patching a row a second time with the same payload changes nothing but
    [updated_at]. *)
Lemma patch_row_twice now1 now2 req p :
  patch_row now2 req (patch_row now1 req p)
  = set_updated_at (patch_row now1 req p) now2.
Proof.
  apply Project_ext.
  - destruct (patch_row_header now2 req (patch_row now1 req p))
      as (? & ? & ? & ? & ? & ? & Hl2).
    destruct (patch_row_header now1 req p) as (_ & _ & _ & _ & _ & _ & Hl1).
    unfold same_header.
    cbn [set_updated_at project_id title mode description last_step
         created_at updated_at].
    repeat split; try done.
    rewrite Hl2, Hl1. by destruct (req_last_step req).
  - intros k. change (get_steps_dict (set_updated_at ?x now2))
      with (get_steps_dict x).
    rewrite patch_row_steps.
    destruct (normalize_steps (default ∅ (req_steps req)) !! k) as [v|] eqn:E;
      [| done].
    by rewrite patch_row_steps, E.
Qed.

(** C8. Applying the same accepted payload to an existing project twice in
    a row: both calls succeed, and the record after the second call is the
    record after the first call with only [updated_at] changed; no other row
    is touched. *)
Theorem update_project_steps_idempotent pid now1 now2 req db p :
  db !! pid = Some p →
  UpdateProjectStepsRequest_valid req = true →
  ∃ db1 p1,
    update_project_steps pid now1 req db = (Ok updated, db1)
    ∧ db1 !! pid = Some p1
    ∧ update_project_steps pid now2 req db1
      = (Ok updated,
         <[pid := mkProject (project_id p1) (title p1) (mode p1)
                    (description p1) (last_step p1) (step0 p1) (step1 p1)
                    (step2 p1) (step3 p1) (step4 p1) (step5 p1)
                    (created_at p1) now2]> db1).
Proof.
  intros Hp Hv.
  exists (<[pid := patch_row now1 req p]> db), (patch_row now1 req p).
  split; [by apply update_project_steps_found |].
  split; [apply lookup_insert_eq |].
  rewrite (update_project_steps_found pid now2 req _ (patch_row now1 req p))
    by (done || apply lookup_insert_eq).
  by rewrite patch_row_twice.
Qed.

Lemma update_project_steps_idempotent_witness :
  db_A !! "p1" = Some row_A
  ∧ UpdateProjectStepsRequest_valid patch_stepX = true
  ∧ ∃ db1 p1,
      update_project_steps "p1" 20 patch_stepX db_A = (Ok updated, db1)
      ∧ db1 !! "p1" = Some p1
      ∧ update_project_steps "p1" 30 patch_stepX db1
        = (Ok updated,
           <["p1" := mkProject (project_id p1) (title p1) (mode p1)
                      (description p1) (last_step p1) (step0 p1) (step1 p1)
                      (step2 p1) (step3 p1) (step4 p1) (step5 p1)
                      (created_at p1) 30]> db1).
Proof.
  split; [reflexivity |]. split; [reflexivity |].
  apply (update_project_steps_idempotent "p1" 20 30 patch_stepX db_A row_A);
    reflexivity.
Defined.

(** ** Invariants of the stored rows *)

Lemma mode_pattern_true m : mode_pattern m = true ↔ valid_mode m.
Proof. unfold mode_pattern. apply bool_decide_eq_true. Qed.

Lemma create_project_rows pid t_created t_updated req db k p :
  (create_project pid t_created t_updated req db).2 !! k = Some p →
  db !! k = Some p
  ∨ (CreateProjectRequest_valid req = true ∧ db !! pid = None ∧ k = pid
     ∧ p = mkProject pid (req_title req) (req_mode req) (req_description req)
             0 None None None None None None t_created t_updated).
Proof.
  unfold create_project.
  destruct (CreateProjectRequest_valid req); simpl; [| by left].
  destruct (db !! pid) eqn:E; simpl; [by left |].
  destruct (decide (k = pid)) as [-> | Hne].
  - rewrite lookup_insert_eq. intros [= <-]. right. done.
  - rewrite lookup_insert_ne by done. by left.
Qed.

Lemma update_project_steps_rows pid now req db k p' :
  (update_project_steps pid now req db).2 !! k = Some p' →
  db !! k = Some p'
  ∨ (UpdateProjectStepsRequest_valid req = true ∧ k = pid
     ∧ ∃ p, db !! pid = Some p ∧ p' = patch_row now req p).
Proof.
  unfold update_project_steps.
  destruct (UpdateProjectStepsRequest_valid req); simpl; [| by left].
  destruct (db !! pid) as [p|] eqn:E; simpl; [| by left].
  destruct (decide (k = pid)) as [-> | Hne].
  - rewrite lookup_insert_eq. intros [= <-]. right. eauto.
  - rewrite lookup_insert_ne by done. by left.
Qed.

(** In a reachable table every row sits under its own [project_id]. *)
Lemma reachable_primary_key db :
  reachable db → ∀ k p, db !! k = Some p → project_id p = k.
Proof.
  induction 1 as [| pid' t1 t2 req db Hr IH | pid' now req db Hr IH];
    intros k p Hp.
  - by rewrite lookup_empty in Hp.
  - apply create_project_rows in Hp as [Hold | (_ & _ & -> & ->)];
      [by apply IH | done].
  - apply update_project_steps_rows in Hp as [Hold | (_ & -> & p0 & Hp0 & ->)];
      [by apply IH |].
    destruct (patch_row_header now req p0) as (-> & _). by apply IH.
Qed.

(** C9. Every row of a table reached from the empty table by
    [create_project] and [update_project_steps] calls has a mode among
    contest, education and startup, a [last_step] between 0 and 5, and a
    step mapping with exactly the six slots step0..step5. *)
Theorem reachable_rows_ok db :
  reachable db →
  ∀ pid p, db !! pid = Some p →
    valid_mode (mode p)
    ∧ 0 <= last_step p <= 5
    ∧ dom (get_steps_dict p) = allowed.
Proof.
  induction 1 as [| pid' t1 t2 req db Hr IH | pid' now req db Hr IH];
    intros pid p Hp.
  - by rewrite lookup_empty in Hp.
  - apply create_project_rows in Hp as [Hold | (Hv & _ & _ & ->)].
    + by apply (IH pid).
    + simpl. split; [by apply mode_pattern_true |].
      split; [lia | apply dom_get_steps_dict].
  - apply update_project_steps_rows in Hp as [Hold | (Hv & _ & p0 & Hp0 & ->)].
    + by apply (IH pid).
    + destruct (IH _ _ Hp0) as (Hm & Hl & _).
      destruct (patch_row_header now req p0) as (_ & _ & -> & _ & _ & _ & ->).
      split; [done |]. split; [| apply dom_get_steps_dict].
      unfold UpdateProjectStepsRequest_valid in Hv.
      destruct (req_last_step req) as [n|]; simpl; [| done].
      apply andb_true_iff in Hv as [?%Z.leb_le ?%Z.leb_le]. lia.
Qed.

Lemma reachable_rows_ok_witness :
  ∃ db p,
    reachable db ∧ db !! "p1" = Some p
    ∧ valid_mode (mode p) ∧ 0 <= last_step p <= 5
    ∧ dom (get_steps_dict p) = allowed.
Proof.
  exists (update_project_steps "p1" 20 patch_stepX
            (create_project "p1" 10 10 create_alpha ∅).2).2.
  exists (mkProject "p1" "Alpha Plan" "contest" (Some "first draft") 2
            None None (Some "C") None None None 10 20).
  assert (reachable (update_project_steps "p1" 20 patch_stepX
                       (create_project "p1" 10 10 create_alpha ∅).2).2) as Hr
    by (apply reach_update, reach_create, reach_init).
  split; [exact Hr |].
  assert ((update_project_steps "p1" 20 patch_stepX
             (create_project "p1" 10 10 create_alpha ∅).2).2 !! "p1"
          = Some (mkProject "p1" "Alpha Plan" "contest" (Some "first draft") 2
                    None None (Some "C") None None None 10 20)) as Hl
    by (vm_compute; reflexivity).
  split; [exact Hl |].
  exact (reachable_rows_ok _ Hr "p1" _ Hl).
Defined.

(** ** Creation *)

(** C6. For a request with an accepted mode and a fresh generated id,
    [create_project] returns that id, and [get_project] on it right after
    yields the submitted title, mode and description, [last_step = 0] and
    six step slots that are all [None]. *)
Theorem create_then_get pid t_created t_updated req db :
  CreateProjectRequest_valid req = true →
  db !! pid = None →
  ∃ db' d,
    create_project pid t_created t_updated req db
    = (Ok (mkCreateProjectResponse pid), db')
    ∧ get_project pid db' = Ok d
    ∧ detail_project_id d = pid
    ∧ detail_title d = req_title req
    ∧ detail_mode d = req_mode req
    ∧ detail_description d = req_description req
    ∧ detail_last_step d = 0
    ∧ dom (detail_steps d) = allowed
    ∧ (∀ k, k ∈ allowed → detail_steps d !! k = Some None).
Proof.
  intros Hv Hfresh.
  set (p := mkProject pid (req_title req) (req_mode req) (req_description req)
              0 None None None None None None t_created t_updated).
  exists (<[pid := p]> db),
    (mkProjectDetail pid (req_title req) (req_mode req) (req_description req)
       0 (get_steps_dict p)).
  split.
  { unfold create_project. by rewrite Hv, Hfresh. }
  split.
  { unfold get_project. by rewrite lookup_insert_eq. }
  simpl. split_and!; [done .. | apply dom_get_steps_dict |].
  intros k Hk%elem_of_allowed. rewrite get_steps_dict_lookup.
  destruct Hk as [-> | [-> | [-> | [-> | [-> | ->]]]]]; reflexivity.
Qed.

Lemma create_then_get_witness :
  CreateProjectRequest_valid create_alpha = true
  ∧ db_A !! "p2" = None
  ∧ ∃ db' d,
      create_project "p2" 40 41 create_alpha db_A
      = (Ok (mkCreateProjectResponse "p2"), db')
      ∧ get_project "p2" db' = Ok d
      ∧ detail_project_id d = "p2"
      ∧ detail_title d = req_title create_alpha
      ∧ detail_mode d = req_mode create_alpha
      ∧ detail_description d = req_description create_alpha
      ∧ detail_last_step d = 0
      ∧ dom (detail_steps d) = allowed
      ∧ (∀ k, k ∈ allowed → detail_steps d !! k = Some None).
Proof.
  split; [reflexivity |]. split; [reflexivity |].
  apply (create_then_get "p2" 40 41 create_alpha db_A); reflexivity.
Defined.

(** C3, counterexample.  The interface section of the specification lets
    [create_project] fail on an empty title; the code stores such a request
    when its mode is accepted. *)
Lemma create_project_accepts_empty_title :
  req_title (mkCreateProjectRequest "" "contest" None) = ""
  ∧ (create_project "p2" 40 41 (mkCreateProjectRequest "" "contest" None)
       db_A).1 = Ok (mkCreateProjectResponse "p2")
  ∧ (create_project "p2" 40 41 (mkCreateProjectRequest "" "contest" None)
       db_A).2 !! "p2"
    = Some (mkProject "p2" "" "contest" None 0
              None None None None None None 40 41).
Proof. vm_compute. repeat split. Qed.

(** C3 (amended). [create_project] answers [ValidationError] whenever the
    mode is not one of contest, education, startup, and then the table is
    unchanged; the title is not inspected: whatever it is (the empty string
    too), a request with one of the three modes and a fresh id is stored
    with that title. *)
Theorem create_project_validation pid t_created t_updated req db :
  (¬ valid_mode (req_mode req) →
     create_project pid t_created t_updated req db = (Err ValidationError, db))
  ∧ (valid_mode (req_mode req) → db !! pid = None →
     (create_project pid t_created t_updated req db).1
       = Ok (mkCreateProjectResponse pid)
     ∧ ∃ p, (create_project pid t_created t_updated req db).2 !! pid = Some p
            ∧ title p = req_title req).
Proof.
  unfold create_project, CreateProjectRequest_valid. split.
  - intros Hm. unfold mode_pattern. by rewrite bool_decide_eq_false_2.
  - intros Hm%mode_pattern_true Hfresh. rewrite Hm, Hfresh. simpl.
    split; [done |]. eexists. rewrite lookup_insert_eq. split; done.
Qed.

Lemma create_project_validation_witness :
  ¬ valid_mode "hobby"
  ∧ create_project "p2" 40 41 (mkCreateProjectRequest "" "hobby" None) db_A
    = (Err ValidationError, db_A)
  ∧ valid_mode "startup"
  ∧ (create_project "p2" 40 41 (mkCreateProjectRequest "" "startup" None)
       db_A).1 = Ok (mkCreateProjectResponse "p2").
Proof.
  assert (¬ valid_mode "hobby") as Hbad.
  { apply (bool_decide_eq_false_1 (valid_mode "hobby")). reflexivity. }
  assert (valid_mode "startup") as Hgood.
  { right. right. reflexivity. }
  split; [exact Hbad |].
  split.
  { exact (proj1 (create_project_validation "p2" 40 41
                    (mkCreateProjectRequest "" "hobby" None) db_A) Hbad). }
  split; [exact Hgood |].
  exact (proj1 (proj2 (create_project_validation "p2" 40 41
                  (mkCreateProjectRequest "" "startup" None) db_A)
                 Hgood eq_refl)).
Defined.

(** ** Unknown keys *)



(** ** The [LIKE] operator *)

Lemma str_app_nil_l (s : string) : "" +:+ s = s.
Proof. reflexivity. Qed.

Lemma str_app_cons c (s t : string) : String c s +:+ t = String c (s +:+ t).
Proof. reflexivity. Qed.

Lemma str_app_nil_r (s : string) : s +:+ "" = s.
Proof.
  induction s as [|c s IH]; [reflexivity |].
  by rewrite str_app_cons, IH.
Qed.

Lemma str_app_assoc (s t u : string) : (s +:+ t) +:+ u = s +:+ (t +:+ u).
Proof.
  induction s as [|c s IH]; [reflexivity |].
  by rewrite !str_app_cons, IH.
Qed.

Lemma str_app_eq_nil (s t : string) : s +:+ t = "" → s = "" ∧ t = "".
Proof. destruct s; [rewrite str_app_nil_l; done | discriminate]. Qed.

Lemma like_nil (t : string) : like "" t = true ↔ t = "".
Proof. destruct t; simpl; split; done. Qed.

Lemma like_percent_unfold (p t : string) :
  like (String "%" p) t =
    like p t || match t with
                | EmptyString => false
                | String _ t' => like (String "%" p) t'
                end.
Proof. destruct t; reflexivity. Qed.

Lemma like_char_unfold c (p t : string) :
  Ascii.eqb c "%" = false →
  like (String c p) t =
    match t with
    | EmptyString => false
    | String d t' =>
        (Ascii.eqb c "_" || Ascii.eqb (ascii_tolower c) (ascii_tolower d))
        && like p t'
    end.
Proof. intros Hc. simpl. rewrite Hc. reflexivity. Qed.

(** [%] takes any prefix of the text. *)
Lemma like_percent_iff (p t : string) :
  like (String "%" p) t = true ↔ ∃ a b, t = a +:+ b ∧ like p b = true.
Proof.
  induction t as [|c t IH]; rewrite like_percent_unfold.
  - rewrite orb_false_r. split.
    + intros H. exists "", "". done.
    + intros (a & b & Hab & Hb). symmetry in Hab.
      apply str_app_eq_nil in Hab as [_ ->]. done.
  - rewrite orb_true_iff, IH. split.
    + intros [H | (a & b & -> & Hb)].
      * exists "", (String c t). done.
      * exists (String c a), b. done.
    + intros (a & b & Hab & Hb). destruct a as [|c' a].
      * rewrite str_app_nil_l in Hab. subst b. by left.
      * rewrite str_app_cons in Hab. injection Hab as -> ->. right. eauto.
Qed.

Lemma like_percent_only (t : string) : like "%" t = true.
Proof.
  apply like_percent_iff. exists t, "". by rewrite str_app_nil_r.
Qed.

(** [_] takes exactly one character. *)
Lemma like_underscore_iff (p t : string) :
  like (String "_" p) t = true ↔ ∃ c b, t = String c b ∧ like p b = true.
Proof.
  rewrite like_char_unfold by reflexivity. destruct t as [|d t].
  - split; [done | intros (c & b & ? & _); done].
  - simpl. split; [eauto |]. intros (c & b & [= -> ->] & Hb). done.
Qed.

(** A pattern in two parts matches the texts that split in two matching
    parts. *)
Lemma like_app (p1 p2 t : string) :
  like (p1 +:+ p2) t = true ↔
  ∃ a b, t = a +:+ b ∧ like p1 a = true ∧ like p2 b = true.
Proof.
  revert t. induction p1 as [|c p1 IH]; intros t.
  - rewrite str_app_nil_l. split.
    + intros H. exists "", t. done.
    + intros (a & b & -> & ->%like_nil & Hb). done.
  - rewrite str_app_cons. destruct (Ascii.eqb c "%") eqn:Hc.
    + apply Ascii.eqb_eq in Hc as ->. rewrite like_percent_iff. split.
      * intros (a & b & -> & (b1 & b2 & -> & H1 & H2)%IH).
        exists (a +:+ b1), b2. rewrite str_app_assoc. split; [done |].
        split; [| done]. apply like_percent_iff. eauto.
      * intros (x & y & -> & (a & b1 & -> & H1)%like_percent_iff & H2).
        exists a, (b1 +:+ y). rewrite str_app_assoc. split; [done |].
        apply IH. eauto.
    + rewrite like_char_unfold by done. split.
      * destruct t as [|d t]; [done |].
        intros [Hd (a & b & -> & H1 & H2)%IH]%andb_true_iff.
        exists (String d a), b. rewrite str_app_cons. split; [done |].
        split; [| done]. rewrite like_char_unfold by done.
        by rewrite Hd, H1.
      * intros (x & y & -> & H1 & H2).
        rewrite like_char_unfold in H1 by done.
        destruct x as [|d x]; [done |].
        apply andb_true_iff in H1 as [Hd H1].
        rewrite str_app_cons, Hd. simpl. apply IH. eauto.
Qed.

Lemma like_pattern_empty (t : string) : like (like_pattern "") t = true.
Proof.
  unfold like_pattern. rewrite str_app_nil_l.
  apply like_percent_iff. exists t, "".
  rewrite str_app_nil_r. split; [done |]. apply like_percent_only.
Qed.

(** A query without [%] and [_]: the pattern asks for the query somewhere in
    the title, letters compared without regard to case. *)
Lemma like_literal_prefix (q t : string) :
  wildcard_free q = true →
  like (q +:+ "%") t = starts_with (str_tolower q) (str_tolower t).
Proof.
  revert t. induction q as [|c q IH]; intros t Hq.
  - rewrite str_app_nil_l, like_percent_only. reflexivity.
  - simpl in Hq.
    apply andb_true_iff in Hq as [[Hc1 Hc2]%andb_true_iff Hq].
    apply negb_true_iff in Hc1, Hc2.
    rewrite str_app_cons, like_char_unfold by done.
    destruct t as [|d t]; [reflexivity |].
    simpl. rewrite Hc2, IH by done. reflexivity.
Qed.

Lemma like_pattern_contains (q t : string) :
  wildcard_free q = true →
  like (like_pattern q) t = contains (str_tolower q) (str_tolower t).
Proof.
  intros Hq. unfold like_pattern. rewrite str_app_cons, str_app_nil_l.
  induction t as [|d t IH]; rewrite like_percent_unfold.
  - rewrite like_literal_prefix by done. reflexivity.
  - rewrite like_literal_prefix, IH by done. reflexivity.
Qed.

(** [LIKE] on the titles of the examples. *)

Example like_ex1 : like (like_pattern "Plan") "Alpha Plan" = true.
Proof. reflexivity. Qed.
Example like_ex2 : like (like_pattern "Zzz") "Alpha Plan" = false.
Proof. reflexivity. Qed.
Example like_ex3 : like (like_pattern "a_p") "Alpha Plan" = true.
Proof. reflexivity. Qed.
Example like_ex4 : like (like_pattern "a_n") "Alpha Plan" = false.
Proof. reflexivity. Qed.
Example like_ex5 : like (like_pattern "l%l") "Alpha Plan" = true.
Proof. reflexivity. Qed.

(** ** Listing *)

#[global] Instance updated_desc_trans : Transitive updated_desc.
Proof. intros a b c. unfold updated_desc. lia. Qed.

#[global] Instance updated_desc_total : Total updated_desc.
Proof. intros a b. unfold updated_desc. lia. Qed.

Lemma filter_all {A} (P : A → Prop) `{!∀ x, Decision (P x)} (l : list A) :
  (∀ x, P x) → filter P l = l.
Proof.
  intros HP. induction l as [|x l IH]; [done |].
  by rewrite filter_cons_True, IH.
Qed.

Lemma elem_of_all_rows (db : gmap string Project) (p : Project) :
  p ∈ all_rows db ↔ ∃ k, db !! k = Some p.
Proof.
  unfold all_rows. rewrite list_elem_of_fmap. split.
  - intros ([k q] & -> & Hin). exists k. by apply elem_of_map_to_list.
  - intros (k & Hk). exists (k, p). split; [done |].
    by apply elem_of_map_to_list.
Qed.

Lemma mode_pattern_truthy m : mode_pattern m = true → truthy_str m = true.
Proof.
  intros [-> | [-> | ->]]%mode_pattern_true; reflexivity.
Qed.

(** *** Texts as the engine reads them *)

Lemma c_string_nul_free (s : string) : nul_free s = true → c_string s = s.
Proof.
  induction s as [|c s IH]; [done |]. simpl.
  intros [Hc Hs]%andb_true_iff. apply negb_true_iff in Hc.
  by rewrite Hc, IH.
Qed.

Lemma nul_free_app (s t : string) :
  nul_free (s +:+ t) = nul_free s && nul_free t.
Proof.
  induction s as [|c s IH]; [done |].
  rewrite str_app_cons. simpl. by rewrite IH, andb_assoc.
Qed.

Lemma nul_free_like_pattern (q : string) :
  nul_free (like_pattern q) = nul_free q.
Proof.
  unfold like_pattern. rewrite !nul_free_app. simpl.
  by rewrite andb_true_r.
Qed.

(** A query is read up to its first U+0000: what comes after it, the closing
    [%] too, is not part of the pattern. *)
Lemma c_string_cut (q1 q2 : string) :
  nul_free q1 = true → c_string (q1 +:+ String NUL q2) = q1.
Proof.
  induction q1 as [|c q1 IH]; [done |]. rewrite str_app_cons. simpl.
  intros [Hc Hq]%andb_true_iff. apply negb_true_iff in Hc.
  by rewrite Hc, IH.
Qed.

Lemma utf8_bytes_nonneg (s : string) : 0 <= utf8_bytes s.
Proof.
  induction s as [|c s IH]; simpl; [done |].
  unfold utf8_size. destruct (N_of_ascii c <? 128)%N; lia.
Qed.

Lemma title_test_empty (t : string) : title_test "" t = true.
Proof. unfold title_test. apply (like_pattern_empty (c_string t)). Qed.

Lemma title_test_nul_free (q t : string) :
  nul_free q = true → title_test q t = like (like_pattern q) (c_string t).
Proof.
  intros Hq. unfold title_test.
  by rewrite c_string_nul_free by (by rewrite nul_free_like_pattern).
Qed.

Lemma all_rows_empty (db : gmap string Project) : all_rows db = [] ↔ db = ∅.
Proof.
  unfold all_rows. rewrite <- map_to_list_empty_iff.
  split; [apply fmap_nil_inv | by intros ->].
Qed.

(** *** The scan *)

Lemma filter_where_like (pat : string) (rows : list Project) :
  filter_where (λ r, sqlite_like pat (title r)) rows
  = if decide (SQLITE_MAX_LIKE_PATTERN_LENGTH < utf8_bytes pat ∧ rows ≠ [])
    then Err OperationalError
    else Ok (filter (λ r, like (c_string pat) (c_string (title r)) = true) rows).
Proof.
  unfold sqlite_like.
  destruct (SQLITE_MAX_LIKE_PATTERN_LENGTH <? utf8_bytes pat) eqn:E.
  - apply Z.ltb_lt in E. destruct rows as [|r rows]; simpl.
    + rewrite decide_False; [done | intros [_ ?]; done].
    + rewrite decide_True; done.
  - apply Z.ltb_ge in E. rewrite decide_False by (intros [? _]; lia).
    induction rows as [|r rows IH]; [done |]. simpl. rewrite IH.
    rewrite filter_cons.
    destruct (like (c_string pat) (c_string (title r))) eqn:Hl.
    + by rewrite decide_True.
    + by rewrite decide_False.
Qed.

(** The two filters in sequence select the rows that pass both tests, an
    empty query string selects like no query at all, and a pattern over a
    limit of the engine ends the request. *)
Lemma apply_filters_spec query md (rows : list Project) :
  match md with Some m => mode_pattern m = true | None => True end →
  apply_filters query md rows
  = if decide (SQLITE_MAX_LENGTH < pattern_bytes query) then Err DataError
    else if decide (SQLITE_MAX_LIKE_PATTERN_LENGTH < pattern_bytes query
                    ∧ rows ≠ [])
         then Err OperationalError
         else Ok (filter (λ p, mode_matches md p ∧ title_matches query p) rows).
Proof.
  intros Hmd.
  assert (∀ q1, q1 = filter (title_matches query) rows →
            match md with
            | Some m => if truthy_str m then filter (λ r, mode r = m) q1 else q1
            | None => q1
            end
            = filter (λ p, mode_matches md p ∧ title_matches query p) rows)
    as Hmode.
  { intros q1 ->. destruct md as [m|]; simpl.
    - rewrite (mode_pattern_truthy m Hmd).
      apply (list_filter_filter (λ r, mode r = m) (title_matches query)).
    - symmetry. apply list_filter_iff. intros p. tauto. }
  unfold apply_filters, pattern_bytes.
  destruct query as [s|]; [destruct (truthy_str s) eqn:Hs |].
  - unfold bind_text.
    destruct (SQLITE_MAX_LENGTH <? utf8_bytes (like_pattern s)) eqn:E.
    + apply Z.ltb_lt in E. by rewrite decide_True.
    + apply Z.ltb_ge in E. rewrite decide_False by lia.
      rewrite filter_where_like. case_decide; [done |].
      f_equal. by apply Hmode.
  - rewrite !decide_False
      by (unfold SQLITE_MAX_LENGTH, SQLITE_MAX_LIKE_PATTERN_LENGTH; lia).
    f_equal. apply Hmode. symmetry. apply filter_all. intros p.
    destruct s; [apply title_test_empty | done].
  - rewrite !decide_False
      by (unfold SQLITE_MAX_LENGTH, SQLITE_MAX_LIKE_PATTERN_LENGTH; lia).
    f_equal. apply Hmode. symmetry. by apply filter_all.
Qed.

(** C4, counterexample.  [list_projects] with a query of one underscore
    returns a project whose title holds no underscore, and with the query
    "plan" a project whose title holds "Plan" but not "plan". *)
Lemma list_projects_not_substring :
  list_projects (Some "_") None None db_A
  = Ok [mkProjectListItem "p1" "Alpha Plan" "contest" 0 10]
  ∧ contains "_" "Alpha Plan" = false
  ∧ list_projects (Some "plan") None None db_A
    = Ok [mkProjectListItem "p1" "Alpha Plan" "contest" 0 10]
  ∧ contains "plan" "Alpha Plan" = false.
Proof. vm_compute. repeat split. Qed.

(** C4 (amended). For an accepted listing request whose pattern [%query%]
    is within the pattern limit of the engine (50000 bytes),
    [list_projects] returns the summaries ([project_id], [title], [mode],
    [last_step], [updated_at] and nothing of the steps) of the first
    [limit] rows, in descending [updated_at] order, among the rows that
    pass both tests: the mode test (skipped without a mode) and the title
    test (skipped without a query), which is the [LIKE] match of the title
    against [%query%], both read up to their first U+0000.  [limit] lies in
    1..200 and is 50 when omitted; every row left out for the limit is at
    most as recent as every row returned.  For a query without [%], [_]
    and U+0000 the title test is containment of the query in the title, as
    far as its first U+0000, with ASCII letters compared without regard to
    case.  With a longer pattern the request ends in an error of the
    engine, unless the table is empty and the pattern can be bound. *)
Theorem list_projects_result query md limit db :
  list_params_valid md limit = true →
  (pattern_bytes query <= SQLITE_MAX_LIKE_PATTERN_LENGTH →
   ∃ rows rest,
     list_projects query md limit db
     = Ok ((λ r, mkProjectListItem (project_id r) (title r) (mode r)
                   (last_step r) (updated_at r)) <$> rows)
     ∧ rows ++ rest ≡ₚ
         filter (λ p, mode_matches md p ∧ title_matches query p) (all_rows db)
     ∧ (∀ p, p ∈ rows ++ rest ↔
             (∃ k, db !! k = Some p) ∧ mode_matches md p
             ∧ title_matches query p)
     ∧ 1 <= default 50 limit <= 200
     ∧ length rows
       = Nat.min (Z.to_nat (default 50 limit)) (length (rows ++ rest))
     ∧ StronglySorted (λ a b, updated_at b <= updated_at a) rows
     ∧ (∀ a b, a ∈ rows → b ∈ rest → updated_at b <= updated_at a)
     ∧ (∀ s t, wildcard_free s = true → nul_free s = true →
          title_test s t
          = contains (str_tolower s) (str_tolower (c_string t))))
  ∧ (SQLITE_MAX_LIKE_PATTERN_LENGTH < pattern_bytes query →
     list_projects query md limit db
     = if decide (SQLITE_MAX_LENGTH < pattern_bytes query)
       then Err DataError
       else if decide (db = ∅) then Ok [] else Err OperationalError).
Proof.
  intros Hv. unfold list_projects. rewrite Hv. cbn [negb].
  apply andb_true_iff in Hv as [Hmd Hlim].
  assert (match md with Some m => mode_pattern m = true | None => True end)
    as Hmd' by (destruct md; done).
  rewrite apply_filters_spec by done.
  split.
  - intros Hfit.
    rewrite !decide_False
      by (unfold SQLITE_MAX_LENGTH, SQLITE_MAX_LIKE_PATTERN_LENGTH in *; lia).
    set (sel := filter (λ p, mode_matches md p ∧ title_matches query p)
                  (all_rows db)).
    set (n := Z.to_nat (default limit_default limit)).
    set (sorted := merge_sort updated_desc sel).
    assert (sorted ≡ₚ sel) as Hperm by apply merge_sort_Permutation.
    assert (StronglySorted updated_desc sorted) as Hsorted
      by (apply StronglySorted_merge_sort; apply _).
    rewrite <- (take_drop n sorted) in Hperm, Hsorted.
    apply StronglySorted_app in Hsorted as (Hcross & Htake & _).
    exists (take n sorted), (drop n sorted).
    assert (1 <= default 50 limit <= 200) as Hrange.
    { destruct limit as [l|]; simpl; [| lia].
      apply andb_true_iff in Hlim as [?%Z.leb_le ?%Z.leb_le]. lia. }
    repeat apply conj.
    + reflexivity.
    + exact Hperm.
    + intros p. rewrite Hperm. subst sel.
      rewrite list_elem_of_filter, elem_of_all_rows. tauto.
    + apply Hrange.
    + apply Hrange.
    + rewrite take_drop. apply length_take.
    + exact Htake.
    + intros a b Ha Hb. apply (Hcross a b Ha Hb).
    + intros s t Hw Hn. rewrite title_test_nul_free by done.
      by apply like_pattern_contains.
  - intros Hlong. case_decide as Hbig; [done |].
    destruct (decide (db = ∅)) as [-> | Hne].
    + rewrite decide_False.
      * rewrite (proj2 (all_rows_empty ∅) eq_refl), filter_nil.
        change (merge_sort updated_desc []) with (@nil Project).
        by rewrite take_nil.
      * intros [_ Hrows]. apply Hrows. by apply all_rows_empty.
    + rewrite decide_True; [done |]. split; [done |].
      by rewrite all_rows_empty.
Qed.

Lemma list_projects_result_witness :
  list_params_valid (Some "contest") (Some 1) = true
  ∧ pattern_bytes (Some "plan") <= SQLITE_MAX_LIKE_PATTERN_LENGTH
  ∧ ∃ rows rest,
      list_projects (Some "plan") (Some "contest") (Some 1) db_A
      = Ok ((λ r, mkProjectListItem (project_id r) (title r) (mode r)
                    (last_step r) (updated_at r)) <$> rows)
      ∧ rows ++ rest ≡ₚ
          filter (λ p, mode_matches (Some "contest") p
                       ∧ title_matches (Some "plan") p) (all_rows db_A)
      ∧ length rows
        = Nat.min (Z.to_nat (default 50 (Some 1))) (length (rows ++ rest)).
Proof.
  assert (pattern_bytes (Some "plan") <= SQLITE_MAX_LIKE_PATTERN_LENGTH)
    as Hfit by (vm_compute; discriminate).
  split; [reflexivity |]. split; [exact Hfit |].
  destruct (proj1 (list_projects_result (Some "plan") (Some "contest")
                     (Some 1) db_A eq_refl) Hfit)
    as (rows & rest & H1 & H2 & _ & _ & H5 & _).
  exists rows, rest. split; [exact H1 |]. split; [exact H2 | exact H5].
Defined.

(** ** Wild cards in the query *)

Lemma like_pattern_split_percent (q1 q2 : string) :
  like_pattern (q1 +:+ "%" +:+ q2) = like_pattern q1 +:+ (q2 +:+ "%").
Proof.
  unfold like_pattern. rewrite !str_app_assoc. reflexivity.
Qed.

Lemma like_pattern_split_underscore (q1 q2 : string) :
  like_pattern (q1 +:+ "_" +:+ q2)
  = ("%" +:+ q1) +:+ String "_" (q2 +:+ "%").
Proof.
  unfold like_pattern. rewrite !str_app_assoc. reflexivity.
Qed.

(** A pattern that ends in [%] accepts any continuation of a text it
    accepts. *)
Lemma like_trailing_percent (p a x : string) :
  like (p +:+ "%") a = true → like (p +:+ "%") (a +:+ x) = true.
Proof.
  intros (a1 & a2 & -> & H1 & _)%like_app. apply like_app.
  exists a1, (a2 +:+ x). rewrite str_app_assoc.
  split; [done |]. split; [done | apply like_percent_only].
Qed.

Lemma like_pattern_percent (t : string) : like (like_pattern "%") t = true.
Proof.
  unfold like_pattern. rewrite !str_app_cons, !str_app_nil_l.
  apply like_percent_iff. exists "", t. split; [done |].
  apply like_percent_iff. exists "", t. split; [done |].
  apply like_percent_only.
Qed.

Lemma like_split_percent (q1 q2 t : string) :
  like (like_pattern (q1 +:+ "%" +:+ q2)) t = true ↔
  ∃ a b, t = a +:+ b ∧ like (like_pattern q1) a = true
         ∧ like (like_pattern q2) b = true.
Proof.
  rewrite like_pattern_split_percent, like_app. split.
  - intros (a & b & -> & Ha & Hb). exists a, b.
    split; [done |]. split; [done |].
    unfold like_pattern. rewrite str_app_cons, str_app_nil_l.
    apply like_percent_iff. exists "", b. done.
  - intros (a & b & -> & Ha & Hb).
    unfold like_pattern in Hb. rewrite str_app_cons, str_app_nil_l in Hb.
    apply like_percent_iff in Hb as (x & y & -> & Hy).
    exists (a +:+ x), y. rewrite str_app_assoc. split; [done |].
    split; [| done].
    unfold like_pattern in *. rewrite <- str_app_assoc in *.
    by apply like_trailing_percent.
Qed.

Lemma like_split_underscore (q1 q2 t : string) :
  like (like_pattern (q1 +:+ "_" +:+ q2)) t = true ↔
  ∃ a c b, t = a +:+ String c b ∧ like ("%" +:+ q1) a = true
           ∧ like (q2 +:+ "%") b = true.
Proof.
  rewrite like_pattern_split_underscore, like_app. split.
  - intros (a & b & -> & Ha & (c & b' & -> & Hb)%like_underscore_iff).
    exists a, c, b'. done.
  - intros (a & c & b & -> & Ha & Hb). exists a, (String c b).
    split; [done |]. split; [done |]. apply like_underscore_iff. eauto.
Qed.

Lemma title_test_percent (t : string) : title_test "%" t = true.
Proof. unfold title_test. apply (like_pattern_percent (c_string t)). Qed.

(** C10, counterexample.  The title of [row_nul] is one character, yet the
    query [_] does not select it; and the query made of U+0000 and [_]
    selects it, though no reading of [_] as a wild card lets a title of one
    character hold U+0000 followed by one more character. *)
Lemma list_projects_nul_wildcard :
  String.length (title row_nul) = 1%nat
  ∧ like (like_pattern "_") (title row_nul) = true
  ∧ list_projects (Some "_") None None db_nul = Ok []
  ∧ like (like_pattern (String NUL "_")) (title row_nul) = false
  ∧ list_projects (Some (String NUL "_")) None None db_nul
    = Ok [mkProjectListItem "p3" (String NUL "") "startup" 0 5].
Proof. vm_compute. repeat split. Qed.

(** C10 (amended). The title filter of [list_projects] is the [LIKE] match
    against the query put as it is between two [%], pattern and title being
    read up to their first U+0000.  On a query and a title without U+0000,
    a [%] inside the query stands for any run of characters: the query
    [q1%q2] selects the titles that split in a part selected by [q1]
    followed by a part selected by [q2]; and a [_] inside the query stands
    for any one character.  Neither is looked for in the title: the query
    [%] selects every title, so listing with it is listing without a query,
    though "Alpha Plan" holds no [%].  A query with a U+0000 is cut there:
    what follows, wild cards and the closing [%] included, is not read. *)
Theorem like_query_wildcards :
  (∀ c s rows,
     pattern_bytes (Some (String c s)) <= SQLITE_MAX_LIKE_PATTERN_LENGTH →
     apply_filters (Some (String c s)) None rows
     = Ok (filter (λ r, like (c_string ("%" +:+ String c s +:+ "%"))
                          (c_string (title r)) = true) rows))
  ∧ (∀ q1 q2 t,
       nul_free q1 = true → nul_free q2 = true → nul_free t = true →
       (title_test (q1 +:+ "%" +:+ q2) t = true ↔
        ∃ a b, t = a +:+ b ∧ title_test q1 a = true
               ∧ title_test q2 b = true))
  ∧ (∀ q1 q2 t,
       nul_free q1 = true → nul_free q2 = true → nul_free t = true →
       (title_test (q1 +:+ "_" +:+ q2) t = true ↔
        ∃ a c b, t = a +:+ String c b ∧ like ("%" +:+ q1) a = true
                 ∧ like (q2 +:+ "%") b = true))
  ∧ (∀ t, title_test "%" t = true)
  ∧ (∀ md limit db,
       list_projects (Some "%") md limit db = list_projects None md limit db)
  ∧ contains "%" "Alpha Plan" = false
  ∧ (∀ q1 q2 t,
       nul_free q1 = true →
       title_test (q1 +:+ String NUL q2) t = like ("%" +:+ q1) (c_string t)).
Proof.
  split; [| split; [| split; [| split; [| split; [| split]]]]].
  - intros c s rows Hfit. unfold apply_filters, bind_text.
    cbn [truthy_str]. unfold pattern_bytes in Hfit. cbn [truthy_str] in Hfit.
    replace (SQLITE_MAX_LENGTH <? utf8_bytes (like_pattern (String c s)))
      with false
      by (symmetry; apply Z.ltb_ge;
          unfold SQLITE_MAX_LENGTH, SQLITE_MAX_LIKE_PATTERN_LENGTH in *; lia).
    rewrite filter_where_like. by rewrite decide_False by (intros [? _]; lia).
  - intros q1 q2 t H1 H2 Ht.
    assert (nul_free (q1 +:+ "%" +:+ q2) = true) as H12.
    { rewrite !nul_free_app, H1, H2. done. }
    rewrite title_test_nul_free, c_string_nul_free by done.
    rewrite like_split_percent. split.
    + intros (a & b & -> & Ha & Hb).
      rewrite nul_free_app in Ht. apply andb_true_iff in Ht as [Hna Hnb].
      exists a, b. rewrite !title_test_nul_free, !c_string_nul_free by done.
      done.
    + intros (a & b & -> & Ha & Hb).
      rewrite nul_free_app in Ht. apply andb_true_iff in Ht as [Hna Hnb].
      rewrite !title_test_nul_free, !c_string_nul_free in Ha, Hb by done.
      eauto.
  - intros q1 q2 t H1 H2 Ht.
    assert (nul_free (q1 +:+ "_" +:+ q2) = true) as H12.
    { rewrite !nul_free_app, H1, H2. done. }
    rewrite title_test_nul_free, c_string_nul_free by done.
    apply like_split_underscore.
  - apply title_test_percent.
  - intros md limit db. unfold list_projects, apply_filters, bind_text.
    cbn [truthy_str].
    replace (SQLITE_MAX_LENGTH <? utf8_bytes (like_pattern "%")) with false
      by reflexivity.
    rewrite filter_where_like.
    rewrite decide_False by (intros [H _]; vm_compute in H; discriminate H).
    rewrite (filter_all (λ r, like (c_string (like_pattern "%"))
                                (c_string (title r)) = true)); [done |].
    intros r. apply title_test_percent.
  - reflexivity.
  - intros q1 q2 t Hq. unfold title_test.
    assert (like_pattern (q1 +:+ String NUL q2)
            = ("%" +:+ q1) +:+ String NUL (q2 +:+ "%")) as ->.
    { unfold like_pattern. rewrite !str_app_assoc. reflexivity. }
    rewrite c_string_cut; [done |].
    rewrite nul_free_app. by rewrite Hq.
Qed.

Lemma like_query_wildcards_witness :
  nul_free "l" = true ∧ nul_free "Plan" = true
  ∧ title_test ("l" +:+ "%" +:+ "l") "Alpha Plan" = true
  ∧ title_test ("l" +:+ String NUL "zzz") "xyl" = like ("%" +:+ "l") "xyl".
Proof.
  split; [reflexivity |]. split; [reflexivity |]. split.
  - apply (proj1 (proj2 like_query_wildcards) "l" "l" "Alpha Plan"
             eq_refl eq_refl eq_refl).
    exists "Al", "pha Plan". split; [reflexivity | split; reflexivity].
  - exact (proj2 (proj2 (proj2 (proj2 (proj2 (proj2 like_query_wildcards)))))
             "l" "zzz" "xyl" eq_refl).
Defined.

(** The listing examples of the specification. *)

Example list_plan_contest :
  list_projects (Some "Plan") (Some "contest") None db_AB
  = Ok [mkProjectListItem "p1" "Alpha Plan" "contest" 0 10].
Proof. vm_compute. reflexivity. Qed.

Example list_zzz : list_projects (Some "Zzz") None None db_AB = Ok [].
Proof. vm_compute. reflexivity. Qed.

Example list_limit_1 :
  list_projects None None (Some 1) db_AB
  = Ok [mkProjectListItem "p2" "Beta Plan" "education" 0 25].
Proof. vm_compute. reflexivity. Qed.

Example list_limit_0 :
  list_projects None None (Some 0) db_AB = Err ValidationError.
Proof. vm_compute. reflexivity. Qed.

Example update_last_step_6 :
  update_project_steps "p1" 20
    (mkUpdateProjectStepsRequest (Some 6) None) db_A
  = (Err ValidationError, db_A).
Proof. reflexivity. Qed.

(** ** The limits of the engine, on the worked tables *)

(** A query of 49998 characters makes a pattern of 50000 bytes, which the
    engine still reads; one character more and the statement stops, on a
    table that has a row. *)
Example list_long_query_fits :
  list_projects (Some (N.iter 49998 (String "a") "")) None None db_A = Ok [].
Proof. vm_compute. reflexivity. Qed.

Example list_long_query_stops :
  list_projects (Some (N.iter 49999 (String "a") "")) None None db_A
  = Err OperationalError.
Proof. vm_compute. reflexivity. Qed.

Example list_long_query_empty_table :
  list_projects (Some (N.iter 49999 (String "a") "")) None None ∅ = Ok [].
Proof. vm_compute. reflexivity. Qed.

(** A title is read up to its first U+0000. *)
Example title_test_after_nul :
  title_test "b" ("a" +:+ String NUL "b") = false
  ∧ title_test "a" ("a" +:+ String NUL "b") = true.
Proof. split; reflexivity. Qed.

(** * Further properties of the operations *)

(** ** Outcomes *)

Lemma UpdateProjectStepsRequest_valid_iff req :
  UpdateProjectStepsRequest_valid req = true ↔
  ∀ n, req_last_step req = Some n → 0 <= n <= 5.
Proof.
  unfold UpdateProjectStepsRequest_valid.
  destruct (req_last_step req) as [m|].
  - rewrite andb_true_iff, Z.leb_le, Z.leb_le. split.
    + intros H n [= <-]. lia.
    + intros H. specialize (H m eq_refl). lia.
  - split; [intros _ n; discriminate | done].
Qed.

(** X1. The three outcomes of [update_project_steps]: a [last_step]
    outside 0..5 is answered [ValidationError] whether the project exists or
    not; otherwise the answer is [NotFoundError] for an absent id and
    success for a present one.  There is no other outcome. *)
Theorem update_project_steps_outcome pid now req db :
  ((update_project_steps pid now req db).1 = Err ValidationError ↔
     ∃ n, req_last_step req = Some n ∧ (n < 0 ∨ 5 < n))
  ∧ ((update_project_steps pid now req db).1 = Err NotFoundError ↔
       (∀ n, req_last_step req = Some n → 0 <= n <= 5) ∧ db !! pid = None)
  ∧ ((update_project_steps pid now req db).1 = Ok updated ↔
       (∀ n, req_last_step req = Some n → 0 <= n <= 5)
       ∧ is_Some (db !! pid))
  ∧ (update_project_steps pid now req db).1 ≠ Err IntegrityError.
Proof.
  unfold update_project_steps.
  destruct (UpdateProjectStepsRequest_valid req) eqn:Hv; simpl.
  - pose proof (proj1 (UpdateProjectStepsRequest_valid_iff req) Hv) as Hok.
    assert (¬ ∃ n, req_last_step req = Some n ∧ (n < 0 ∨ 5 < n)) as Hnone.
    { intros (n & Hn & Hbad). specialize (Hok n Hn). lia. }
    destruct (db !! pid) as [p|]; simpl.
    + split; [| split; [| split]].
      * split; [discriminate | intros H; destruct (Hnone H)].
      * split; [discriminate | intros [_ H]; discriminate H].
      * split; [intros _; split; [exact Hok | by exists p] | reflexivity].
      * discriminate.
    + split; [| split; [| split]].
      * split; [discriminate | intros H; destruct (Hnone H)].
      * split; [intros _; split; [exact Hok | reflexivity] | reflexivity].
      * split; [discriminate | intros [_ [q H]]; discriminate H].
      * discriminate.
  - assert (∃ n, req_last_step req = Some n ∧ (n < 0 ∨ 5 < n)) as Hbad.
    { unfold UpdateProjectStepsRequest_valid in Hv.
      destruct (req_last_step req) as [n|]; [| discriminate].
      exists n. split; [done |].
      apply andb_false_iff in Hv as [?%Z.leb_gt | ?%Z.leb_gt]; lia. }
    assert (¬ ∀ n, req_last_step req = Some n → 0 <= n <= 5) as Hnot.
    { destruct Hbad as (n & Hn & Hbad). intros H. specialize (H n Hn). lia. }
    split; [| split; [| split]].
    + split; [intros _; exact Hbad | reflexivity].
    + split; [discriminate | intros [H _]; destruct (Hnot H)].
    + split; [discriminate | intros [H _]; destruct (Hnot H)].
    + discriminate.
Qed.

(** X2. The outcomes of [create_project]: [ValidationError] exactly for a
    mode outside the three; with an accepted mode, success exactly when the
    generated id is not in the table yet, and otherwise the commit fails on
    the primary key.  A call that fails leaves the table as it was. *)
Theorem create_project_outcome pid t_created t_updated req db :
  ((create_project pid t_created t_updated req db).1 = Err ValidationError ↔
     ¬ valid_mode (req_mode req))
  ∧ ((create_project pid t_created t_updated req db).1 = Err IntegrityError ↔
       valid_mode (req_mode req) ∧ is_Some (db !! pid))
  ∧ ((create_project pid t_created t_updated req db).1
       = Ok (mkCreateProjectResponse pid) ↔
       valid_mode (req_mode req) ∧ db !! pid = None)
  ∧ (∀ e, (create_project pid t_created t_updated req db).1 = Err e →
          (create_project pid t_created t_updated req db).2 = db).
Proof.
  unfold create_project, CreateProjectRequest_valid.
  destruct (mode_pattern (req_mode req)) eqn:Hm; simpl.
  - apply mode_pattern_true in Hm.
    destruct (db !! pid) as [p|]; simpl.
    + split; [| split; [| split]].
      * split; [discriminate | intros H; destruct (H Hm)].
      * split; [intros _; split; [exact Hm | by exists p] | reflexivity].
      * split; [discriminate | intros [_ H]; discriminate H].
      * reflexivity.
    + split; [| split; [| split]].
      * split; [discriminate | intros H; destruct (H Hm)].
      * split; [discriminate | intros [_ [q H]]; discriminate H].
      * split; [intros _; split; [exact Hm | reflexivity] | reflexivity].
      * intros e H. discriminate H.
  - assert (¬ valid_mode (req_mode req)) as Hbad.
    { intros H%mode_pattern_true. congruence. }
    split; [| split; [| split]].
    + split; [intros _; exact Hbad | reflexivity].
    + split; [discriminate | intros [H _]; destruct (Hbad H)].
    + split; [discriminate | intros [H _]; destruct (Hbad H)].
    + reflexivity.
Qed.

(** ** Other projects *)

(** X3. [create_project] never touches a stored project: every row of the
    table is still there, unchanged, after the call, also when the generated
    id is taken; and on success the ids of the table are the old ones and
    the new one. *)
Theorem create_project_keeps_rows pid t_created t_updated req db :
  (∀ k p, db !! k = Some p →
     (create_project pid t_created t_updated req db).2 !! k = Some p)
  ∧ (∀ k, get_project k db ≠ Err NotFoundError →
       get_project k (create_project pid t_created t_updated req db).2
       = get_project k db)
  ∧ ((create_project pid t_created t_updated req db).1
       = Ok (mkCreateProjectResponse pid) →
       dom (create_project pid t_created t_updated req db).2
       = {[ pid ]} ∪ dom db).
Proof.
  assert (∀ k p, db !! k = Some p →
     (create_project pid t_created t_updated req db).2 !! k = Some p) as Hkeep.
  { intros k p Hk. unfold create_project.
    destruct (CreateProjectRequest_valid req); simpl; [| done].
    destruct (db !! pid) eqn:E; simpl; [done |].
    rewrite lookup_insert_ne; [done |]. intros ->. congruence. }
  split; [exact Hkeep |]. split.
  - intros k. unfold get_project at 1 3.
    destruct (db !! k) as [p|] eqn:E; [| done].
    intros _. unfold get_project. by rewrite (Hkeep k p E).
  - unfold create_project.
    destruct (CreateProjectRequest_valid req); simpl; [| done].
    destruct (db !! pid); simpl; [done |].
    intros _. apply dom_insert_L.
Qed.

Lemma create_project_keeps_rows_witness :
  db_A !! "p1" = Some row_A
  ∧ (create_project "p1" 40 41 create_alpha db_A).2 !! "p1" = Some row_A
  ∧ (create_project "p2" 40 41 create_alpha db_A).2 !! "p1" = Some row_A.
Proof.
  split; [reflexivity |]. split.
  - exact (proj1 (create_project_keeps_rows "p1" 40 41 create_alpha db_A)
             "p1" row_A eq_refl).
  - exact (proj1 (create_project_keeps_rows "p2" 40 41 create_alpha db_A)
             "p1" row_A eq_refl).
Defined.

Lemma update_project_steps_other pid now req db k :
  k ≠ pid → (update_project_steps pid now req db).2 !! k = db !! k.
Proof.
  intros Hne. unfold update_project_steps.
  destruct (UpdateProjectStepsRequest_valid req); simpl; [| done].
  destruct (db !! pid); simpl; [| done].
  by rewrite lookup_insert_ne.
Qed.

(** X4. Updates of two different projects do not interfere: the outcome of
    each is what it is on its own, and the two calls in either order leave
    the same table. *)
Theorem update_project_steps_independent pid1 pid2 t1 t2 req1 req2 db :
  pid1 ≠ pid2 →
  (update_project_steps pid2 t2 req2
     (update_project_steps pid1 t1 req1 db).2).1
  = (update_project_steps pid2 t2 req2 db).1
  ∧ (update_project_steps pid2 t2 req2
       (update_project_steps pid1 t1 req1 db).2).2
    = (update_project_steps pid1 t1 req1
         (update_project_steps pid2 t2 req2 db).2).2.
Proof.
  intros Hne. assert (pid2 ≠ pid1) as Hne' by congruence.
  unfold update_project_steps.
  destruct (UpdateProjectStepsRequest_valid req1) eqn:V1,
           (UpdateProjectStepsRequest_valid req2) eqn:V2;
    simpl; rewrite ?V1, ?V2; simpl; try done.
  all: destruct (db !! pid1) as [q1|] eqn:E1, (db !! pid2) as [q2|] eqn:E2;
    simpl; rewrite ?lookup_insert_ne by done;
    rewrite ?E1, ?E2, ?V1, ?V2; simpl; try done.
  all: split; [done | by apply insert_insert_ne].
Qed.

Lemma update_project_steps_independent_witness :
  "p1" ≠ "p2"
  ∧ (update_project_steps "p2" 30 patch_stepX
       (update_project_steps "p1" 20 patch_step1 db_AB).2).2
    = (update_project_steps "p1" 20 patch_step1
         (update_project_steps "p2" 30 patch_stepX db_AB).2).2.
Proof.
  assert ("p1" ≠ "p2") as Hne by discriminate.
  split; [exact Hne |].
  exact (proj2 (update_project_steps_independent "p1" "p2" 20 30
                  patch_step1 patch_stepX db_AB Hne)).
Defined.

(** ** Successive updates of one project *)

Lemma merge_patches_valid req1 req2 :
  UpdateProjectStepsRequest_valid req1 = true →
  UpdateProjectStepsRequest_valid req2 = true →
  UpdateProjectStepsRequest_valid (merge_patches req1 req2) = true.
Proof.
  unfold UpdateProjectStepsRequest_valid, merge_patches. simpl.
  by destruct (req_last_step req2).
Qed.

Lemma patch_row_merge now1 now2 req1 req2 p :
  patch_row now2 req2 (patch_row now1 req1 p)
  = patch_row now2 (merge_patches req1 req2) p.
Proof.
  apply Project_ext.
  - destruct (patch_row_header now2 req2 (patch_row now1 req1 p))
      as (E1 & E2 & E3 & E4 & E5 & E6 & E7).
    destruct (patch_row_header now1 req1 p)
      as (F1 & F2 & F3 & F4 & F5 & _ & F7).
    destruct (patch_row_header now2 (merge_patches req1 req2) p)
      as (G1 & G2 & G3 & G4 & G5 & G6 & G7).
    unfold same_header.
    rewrite E1, E2, E3, E4, E5, E6, E7, F1, F2, F3, F4, F5, F7.
    rewrite G1, G2, G3, G4, G5, G6, G7.
    split_and!; try done.
    unfold merge_patches. simpl. by destruct (req_last_step req2).
  - intros k. rewrite !patch_row_steps. unfold merge_patches. simpl.
    rewrite !normalize_steps_lookup. case_decide; [| done].
    rewrite lookup_union.
    destruct (default ∅ (req_steps req2) !! k),
             (default ∅ (req_steps req1) !! k); done.
Qed.

(** X5. Two accepted updates of an existing project, one after the other,
    leave the table that the single update with the merged payload leaves:
    [last_step] of the later call when it gives one, and for every slot the
    value of the later call when it names the slot, else that of the earlier
    call. *)
Theorem update_project_steps_compose pid now1 now2 req1 req2 db p :
  db !! pid = Some p →
  UpdateProjectStepsRequest_valid req1 = true →
  UpdateProjectStepsRequest_valid req2 = true →
  update_project_steps pid now2 req2
    (update_project_steps pid now1 req1 db).2
  = update_project_steps pid now2 (merge_patches req1 req2) db.
Proof.
  intros Hp V1 V2.
  rewrite (update_project_steps_found pid now1 req1 db p) by done. simpl.
  rewrite (update_project_steps_found pid now2 req2 _ (patch_row now1 req1 p))
    by (done || apply lookup_insert_eq).
  rewrite (update_project_steps_found pid now2 (merge_patches req1 req2) db p)
    by (done || by apply merge_patches_valid).
  by rewrite insert_insert_eq, patch_row_merge.
Qed.

Lemma update_project_steps_compose_witness :
  db_A !! "p1" = Some row_A
  ∧ UpdateProjectStepsRequest_valid patch_step1 = true
  ∧ UpdateProjectStepsRequest_valid patch_stepX = true
  ∧ update_project_steps "p1" 30 patch_stepX
      (update_project_steps "p1" 20 patch_step1 db_A).2
    = update_project_steps "p1" 30 (merge_patches patch_step1 patch_stepX) db_A.
Proof.
  split; [reflexivity |]. split; [reflexivity |]. split; [reflexivity |].
  apply (update_project_steps_compose "p1" 20 30 patch_step1 patch_stepX
           db_A row_A); reflexivity.
Defined.

(** ** The life of a project *)

(** X6. Once a project is stored it stays: after any further
    [create_project] and [update_project_steps] calls the id is still in
    the table, with the [project_id], [title], [mode], [description] and
    [created_at] it had. *)
Theorem evolves_keeps_project db db' :
  evolves db db' →
  ∀ k p, db !! k = Some p →
    ∃ p', db' !! k = Some p'
      ∧ project_id p' = project_id p ∧ title p' = title p
      ∧ mode p' = mode p ∧ description p' = description p
      ∧ created_at p' = created_at p.
Proof.
  induction 1 as [| pid t1 t2 req db' Hev IH | pid now req db' Hev IH];
    intros k p Hp.
  - exists p. done.
  - destruct (IH k p Hp) as (p' & Hp' & Hfields).
    exists p'. split; [| done].
    unfold create_project.
    destruct (CreateProjectRequest_valid req); simpl; [| done].
    destruct (db' !! pid) eqn:E; simpl; [done |].
    rewrite lookup_insert_ne; [done |]. intros ->. congruence.
  - destruct (IH k p Hp) as (p' & Hp' & H1 & H2 & H3 & H4 & H5).
    destruct (decide (k = pid)) as [-> | Hne].
    + unfold update_project_steps.
      destruct (UpdateProjectStepsRequest_valid req); simpl; [| eauto 10].
      rewrite Hp'. simpl. rewrite lookup_insert_eq.
      exists (patch_row now req p'). split; [done |].
      destruct (patch_row_header now req p') as (-> & -> & -> & -> & -> & _).
      done.
    + exists p'. by rewrite update_project_steps_other.
Qed.

Lemma evolves_keeps_project_witness :
  ∃ db' p', evolves db_A db' ∧ db' !! "p1" = Some p'
    ∧ title p' = "Alpha Plan" ∧ mode p' = "contest" ∧ created_at p' = 10.
Proof.
  assert (evolves db_A
            (update_project_steps "p1" 30 patch_stepX
               (create_project "p2" 20 20 create_alpha db_A).2).2) as Hev
    by (apply evolves_update, evolves_create, evolves_refl).
  destruct (evolves_keeps_project _ _ Hev "p1" row_A eq_refl)
    as (p' & Hp' & _ & Ht & Hm & _ & Hc).
  exists (update_project_steps "p1" 30 patch_stepX
            (create_project "p2" 20 20 create_alpha db_A).2).2, p'.
  split; [exact Hev |]. split; [exact Hp' |].
  split; [exact Ht |]. split; [exact Hm | exact Hc].
Defined.

(** X7. When the readings of the clock never go back, every stored row
    has [created_at <= updated_at], and no [updated_at] lies after the last
    reading. *)
Theorem clocked_timestamps t db :
  clocked t db →
  ∀ k p, db !! k = Some p → created_at p <= updated_at p <= t.
Proof.
  induction 1 as [t | t pid t1 t2 req db Hc IH Ht1 Ht2
                    | t pid now req db Hc IH Hnow]; intros k p Hp.
  - by rewrite lookup_empty in Hp.
  - apply create_project_rows in Hp as [Hold | (_ & _ & _ & ->)].
    + specialize (IH k p Hold). lia.
    + simpl. lia.
  - apply update_project_steps_rows in Hp as [Hold | (_ & _ & p0 & Hp0 & ->)].
    + specialize (IH k p Hold). lia.
    + specialize (IH _ _ Hp0).
      destruct (patch_row_header now req p0) as (_ & _ & _ & _ & -> & -> & _).
      lia.
Qed.

Lemma clocked_timestamps_witness :
  ∃ db p, clocked 30 db ∧ db !! "p1" = Some p
    ∧ created_at p <= updated_at p <= 30.
Proof.
  assert (clocked 30
            (update_project_steps "p1" 30 patch_stepX
               (create_project "p1" 10 11 create_alpha ∅).2).2) as Hc.
  { apply (clocked_update 11); [| lia].
    apply (clocked_create 10); [apply clocked_init | lia | lia]. }
  assert ((update_project_steps "p1" 30 patch_stepX
             (create_project "p1" 10 11 create_alpha ∅).2).2 !! "p1"
          = Some (mkProject "p1" "Alpha Plan" "contest" (Some "first draft") 2
                    None None (Some "C") None None None 10 30)) as Hl
    by (vm_compute; reflexivity).
  eexists _, _. split; [exact Hc |]. split; [exact Hl |].
  exact (clocked_timestamps 30 _ Hc "p1" _ Hl).
Defined.

(** ** Listing and fetching *)

(** The shape of a successful listing. *)
Lemma list_projects_ok query md limit db items :
  list_projects query md limit db = Ok items →
  items = to_list_item <$>
            take (Z.to_nat (default limit_default limit))
              (merge_sort updated_desc
                 (filter (λ p, mode_matches md p ∧ title_matches query p)
                    (all_rows db))).
Proof.
  unfold list_projects.
  destruct (list_params_valid md limit) eqn:Hv; simpl; [| discriminate].
  apply andb_true_iff in Hv as [Hmd _].
  rewrite apply_filters_spec by (by destruct md).
  repeat case_decide; try discriminate. by intros [= <-].
Qed.

Lemma list_projects_rows query md limit db items it :
  list_projects query md limit db = Ok items →
  it ∈ items →
  ∃ k r, db !! k = Some r ∧ it = to_list_item r
         ∧ mode_matches md r ∧ title_matches query r.
Proof.
  intros ->%list_projects_ok (r & -> & Hr)%list_elem_of_fmap.
  apply subseteq_take in Hr.
  rewrite merge_sort_Permutation in Hr.
  apply list_elem_of_filter in Hr as [[Hm Ht] Hr].
  apply elem_of_all_rows in Hr as [k Hk]. eauto 10.
Qed.

(** X8. In a reachable table, every entry of a listing can be fetched:
    [get_project] on its [project_id] succeeds and returns that id with the
    title, mode and [last_step] the entry shows. *)
Theorem list_then_get query md limit db items :
  reachable db →
  list_projects query md limit db = Ok items →
  ∀ it, it ∈ items →
    ∃ d, get_project (item_project_id it) db = Ok d
      ∧ detail_project_id d = item_project_id it
      ∧ detail_title d = item_title it
      ∧ detail_mode d = item_mode it
      ∧ detail_last_step d = item_last_step it.
Proof.
  intros Hr Hl it Hit.
  destruct (list_projects_rows _ _ _ _ _ _ Hl Hit) as (k & r & Hk & -> & _).
  pose proof (reachable_primary_key db Hr k r Hk) as Hid.
  simpl. unfold get_project. rewrite Hid, Hk. eexists. split; [done |].
  simpl. done.
Qed.

Lemma list_then_get_witness :
  ∃ db items it d,
    reachable db
    ∧ list_projects (Some "alpha") (Some "contest") None db = Ok items
    ∧ it ∈ items
    ∧ get_project (item_project_id it) db = Ok d
    ∧ detail_title d = item_title it.
Proof.
  set (db := (create_project "p1" 10 10 create_alpha ∅).2).
  assert (reachable db) as Hr by apply reach_create, reach_init.
  set (it := mkProjectListItem "p1" "Alpha Plan" "contest" 0 10).
  assert (list_projects (Some "alpha") (Some "contest") None db = Ok [it])
    as Hl by (vm_compute; reflexivity).
  assert (it ∈ [it]) as Hin by apply list_elem_of_here.
  destruct (list_then_get _ _ _ db [it] Hr Hl it Hin) as (d & Hd & _ & Ht & _).
  exists db, [it], it, d.
  split; [exact Hr |]. split; [exact Hl |]. split; [exact Hin |].
  split; [exact Hd | exact Ht].
Defined.

(** X9. In a reachable table a listing shows no project twice. *)
Theorem list_projects_no_duplicates query md limit db items :
  reachable db →
  list_projects query md limit db = Ok items →
  NoDup (item_project_id <$> items).
Proof.
  intros Hr ->%list_projects_ok.
  rewrite <- list_fmap_compose.
  change (item_project_id ∘ to_list_item) with project_id.
  assert (NoDup (project_id <$> all_rows db)) as Hnd.
  { unfold all_rows. rewrite <- list_fmap_compose.
    rewrite (list_fmap_ext (project_id ∘ snd) fst).
    - apply NoDup_fst_map_to_list.
    - intros i [k r] Hi. simpl.
      apply (reachable_primary_key db Hr).
      apply elem_of_map_to_list. by eapply list_elem_of_lookup_2. }
  eapply sublist_NoDup; [| apply fmap_sublist, sublist_take].
  rewrite merge_sort_Permutation.
  eapply sublist_NoDup; [exact Hnd |].
  apply fmap_sublist, sublist_filter.
Qed.

Lemma list_projects_no_duplicates_witness :
  ∃ db items,
    reachable db ∧ list_projects None None None db = Ok items
    ∧ NoDup (item_project_id <$> items).
Proof.
  set (db := (create_project "p2" 20 20 create_alpha
                (create_project "p1" 10 10 create_alpha ∅).2).2).
  assert (reachable db) as Hr by apply reach_create, reach_create, reach_init.
  assert (list_projects None None None db
          = Ok [mkProjectListItem "p2" "Alpha Plan" "contest" 0 20;
                mkProjectListItem "p1" "Alpha Plan" "contest" 0 10])
    as Hl by (vm_compute; reflexivity).
  eexists db, _. split; [exact Hr |]. split; [exact Hl |].
  exact (list_projects_no_duplicates _ _ _ db _ Hr Hl).
Defined.

(** X10. An accepted update at a time later than every other project's
    [updated_at] puts the project first: the listing of one entry, without
    filters, is then the summary of the updated project. *)
Theorem update_then_list_first pid now req db p :
  db !! pid = Some p →
  UpdateProjectStepsRequest_valid req = true →
  (∀ k q, k ≠ pid → db !! k = Some q → updated_at q < now) →
  list_projects None None (Some 1) (update_project_steps pid now req db).2
  = Ok [mkProjectListItem (project_id p) (title p) (mode p)
          (match req_last_step req with
           | Some n => n
           | None => last_step p
           end) now].
Proof.
  intros Hp Hv Hlater.
  rewrite (update_project_steps_found pid now req db p) by done. simpl.
  set (p' := patch_row now req p). set (db' := <[pid := p']> db).
  unfold list_projects. simpl.
  set (l := merge_sort updated_desc (all_rows db')).
  assert (l ≡ₚ all_rows db') as Hperm by apply merge_sort_Permutation.
  assert (StronglySorted updated_desc l) as Hsorted
    by (apply StronglySorted_merge_sort; apply _).
  assert (updated_at p' = now) as Hnow.
  { subst p'. by destruct (patch_row_header now req p)
      as (_ & _ & _ & _ & _ & -> & _). }
  assert (p' ∈ l) as Hin.
  { rewrite Hperm. apply elem_of_all_rows. exists pid.
    subst db'. apply lookup_insert_eq. }
  assert (∀ r, r ∈ l → r = p' ∨ updated_at r < now) as Hrows.
  { intros r Hr. rewrite Hperm in Hr.
    apply elem_of_all_rows in Hr as [k Hk]. subst db'.
    destruct (decide (k = pid)) as [-> | Hne].
    - rewrite lookup_insert_eq in Hk. left. congruence.
    - rewrite lookup_insert_ne in Hk by done. right. by eapply Hlater. }
  destruct l as [|r l']; [by apply elem_of_nil in Hin |].
  apply StronglySorted_cons in Hsorted as [Hhd _].
  assert (r = p') as ->.
  { destruct (Hrows r (list_elem_of_here _ _)) as [-> | Hlt]; [done |].
    apply elem_of_cons in Hin as [<- | Hin']; [done |].
    rewrite Forall_forall in Hhd. specialize (Hhd p' Hin').
    unfold updated_desc in Hhd. lia. }
  simpl. unfold to_list_item. subst p'.
  destruct (patch_row_header now req p) as (-> & -> & -> & _ & _ & -> & ->).
  by destruct (req_last_step req).
Qed.

Lemma update_then_list_first_witness :
  db_AB !! "p1" = Some row_A
  ∧ UpdateProjectStepsRequest_valid patch_stepX = true
  ∧ list_projects None None (Some 1)
      (update_project_steps "p1" 30 patch_stepX db_AB).2
    = Ok [mkProjectListItem "p1" "Alpha Plan" "contest" 2 30].
Proof.
  split; [reflexivity |]. split; [reflexivity |].
  apply (update_then_list_first "p1" 30 patch_stepX db_AB row_A);
    [reflexivity | reflexivity |].
  intros k q Hne Hk. unfold db_AB, db_A in Hk.
  destruct (decide (k = "p2")) as [-> | Hne2].
  - rewrite lookup_insert_eq in Hk. injection Hk as <-. simpl. lia.
  - rewrite lookup_insert_ne, lookup_singleton_ne in Hk by done.
    discriminate Hk.
Defined.

(** ** The title filter and the case of letters *)

Lemma ascii_tolower_idem c : ascii_tolower (ascii_tolower c) = ascii_tolower c.
Proof. destruct c as [[] [] [] [] [] [] [] []]; reflexivity. Qed.

Lemma ascii_tolower_percent c :
  Ascii.eqb (ascii_tolower c) "%" = Ascii.eqb c "%".
Proof. destruct c as [[] [] [] [] [] [] [] []]; reflexivity. Qed.

Lemma ascii_tolower_underscore c :
  Ascii.eqb (ascii_tolower c) "_" = Ascii.eqb c "_".
Proof. destruct c as [[] [] [] [] [] [] [] []]; reflexivity. Qed.

Lemma str_tolower_app (s t : string) :
  str_tolower (s +:+ t) = str_tolower s +:+ str_tolower t.
Proof.
  induction s as [|c s IH]; [reflexivity |].
  rewrite str_app_cons. simpl. by rewrite IH.
Qed.

Lemma str_tolower_like_pattern (q : string) :
  str_tolower (like_pattern q) = like_pattern (str_tolower q).
Proof. unfold like_pattern. by rewrite !str_tolower_app. Qed.

(** [LIKE] does not see the case of the ASCII letters, in the pattern or in
    the text. *)
Lemma like_tolower (p t : string) :
  like (str_tolower p) (str_tolower t) = like p t.
Proof.
  revert t. induction p as [|c p IH]; intros t.
  - by destruct t.
  - destruct (Ascii.eqb c "%") eqn:Hc.
    + apply Ascii.eqb_eq in Hc as ->.
      change (str_tolower (String "%" p)) with (String "%" (str_tolower p)).
      induction t as [|d t IHt].
      * pose proof (IH "") as H0. simpl str_tolower in *.
        by rewrite (like_percent_unfold p), like_percent_unfold, H0.
      * pose proof (IH (String d t)) as H0. simpl str_tolower in *.
        by rewrite (like_percent_unfold p), like_percent_unfold, IHt, H0.
    + rewrite (like_char_unfold c) by done. simpl str_tolower.
      rewrite like_char_unfold by (by rewrite ascii_tolower_percent).
      destruct t as [|d t]; [done |]. simpl str_tolower.
      by rewrite ascii_tolower_underscore, !ascii_tolower_idem, IH.
Qed.

Lemma str_tolower_truthy (q : string) :
  truthy_str (str_tolower q) = truthy_str q.
Proof. by destruct q. Qed.

Lemma ascii_tolower_nul c :
  Ascii.eqb (ascii_tolower c) NUL = Ascii.eqb c NUL.
Proof. destruct c as [[] [] [] [] [] [] [] []]; reflexivity. Qed.

Lemma utf8_size_tolower c : utf8_size (ascii_tolower c) = utf8_size c.
Proof. destruct c as [[] [] [] [] [] [] [] []]; reflexivity. Qed.

Lemma c_string_tolower (s : string) :
  c_string (str_tolower s) = str_tolower (c_string s).
Proof.
  induction s as [|c s IH]; [done |]. simpl.
  rewrite ascii_tolower_nul. destruct (Ascii.eqb c NUL); [done |].
  simpl. by rewrite IH.
Qed.

Lemma utf8_bytes_tolower (s : string) :
  utf8_bytes (str_tolower s) = utf8_bytes s.
Proof.
  induction s as [|c s IH]; [done |]. simpl.
  by rewrite utf8_size_tolower, IH.
Qed.

Lemma sqlite_like_case (p1 p2 t : string) :
  str_tolower p1 = str_tolower p2 → sqlite_like p1 t = sqlite_like p2 t.
Proof.
  intros Hp. unfold sqlite_like.
  rewrite <- (utf8_bytes_tolower p1), Hp, utf8_bytes_tolower.
  rewrite <- (like_tolower (c_string p1)), <- (like_tolower (c_string p2)).
  by rewrite <- !c_string_tolower, Hp.
Qed.

Lemma filter_where_ext {A} (f g : A → result bool) (rows : list A) :
  (∀ r, f r = g r) → filter_where f rows = filter_where g rows.
Proof.
  intros Hfg. induction rows as [|r rows IH]; [done |].
  simpl. by rewrite Hfg, IH.
Qed.

Lemma apply_filters_case q1 q2 md (rows : list Project) :
  str_tolower q1 = str_tolower q2 →
  apply_filters (Some q1) md rows = apply_filters (Some q2) md rows.
Proof.
  intros Hq. unfold apply_filters, bind_text.
  assert (truthy_str q1 = truthy_str q2) as ->.
  { by rewrite <- (str_tolower_truthy q1), Hq, str_tolower_truthy. }
  assert (str_tolower (like_pattern q1) = str_tolower (like_pattern q2)) as Hp.
  { by rewrite !str_tolower_like_pattern, Hq. }
  rewrite <- (utf8_bytes_tolower (like_pattern q1)), Hp, utf8_bytes_tolower.
  destruct (truthy_str q2); [| done].
  destruct (SQLITE_MAX_LENGTH <? utf8_bytes (like_pattern q2)); [done |].
  rewrite (filter_where_ext
             (λ r, sqlite_like (like_pattern q1) (title r))
             (λ r, sqlite_like (like_pattern q2) (title r))); [done |].
  intros r. by apply sqlite_like_case.
Qed.

(** X11. The title search does not see the case of ASCII letters: two
    queries that differ in the case of letters only give the same listing,
    on every table. *)
Theorem list_projects_query_case q1 q2 md limit db :
  str_tolower q1 = str_tolower q2 →
  list_projects (Some q1) md limit db = list_projects (Some q2) md limit db.
Proof.
  intros Hq. unfold list_projects.
  by rewrite (apply_filters_case q1 q2 md (all_rows db) Hq).
Qed.

Lemma list_projects_query_case_witness :
  str_tolower "PLAN" = str_tolower "plan"
  ∧ list_projects (Some "PLAN") None None db_AB
    = list_projects (Some "plan") None None db_AB.
Proof.
  split; [reflexivity |].
  apply (list_projects_query_case "PLAN" "plan" None None db_AB).
  reflexivity.
Defined.

(** ** The title filter and literal containment *)

Lemma like_self (q : string) : like q q = true.
Proof.
  induction q as [|c q IH]; [reflexivity |].
  destruct (Ascii.eqb c "%") eqn:Hc.
  - apply Ascii.eqb_eq in Hc as ->. apply like_percent_iff.
    exists "%", q. done.
  - rewrite like_char_unfold by done.
    by rewrite Ascii.eqb_refl, orb_true_r, IH.
Qed.

Lemma starts_with_app (q t : string) :
  starts_with q t = true → ∃ b, t = q +:+ b.
Proof.
  revert t. induction q as [|c q IH]; intros t.
  - intros _. exists t. done.
  - destruct t as [|d t]; [done |]. simpl.
    intros [->%Ascii.eqb_eq [b ->]%IH]%andb_true_iff. exists b. done.
Qed.

Lemma contains_app (q t : string) :
  contains q t = true → ∃ a b, t = a +:+ q +:+ b.
Proof.
  induction t as [|d t IH]; simpl.
  - rewrite orb_false_r. intros [b ->]%starts_with_app. exists "", b. done.
  - intros [[b ->]%starts_with_app | (a & b & ->)%IH]%orb_true_iff.
    + exists "", b. done.
    + exists (String d a), b. done.
Qed.

Lemma like_pattern_literal (q t : string) :
  contains q t = true → like (like_pattern q) t = true.
Proof.
  intros (a & b & ->)%contains_app. unfold like_pattern.
  rewrite str_app_cons, str_app_nil_l.
  apply like_percent_iff. exists a, (q +:+ b). split; [done |].
  apply like_app. exists q, b. split; [done |].
  split; [apply like_self | apply like_percent_only].
Qed.

Lemma contains_nul_free (q t : string) :
  contains q t = true → nul_free t = true → nul_free q = true.
Proof.
  intros (a & b & ->)%contains_app.
  rewrite !nul_free_app. by intros [_ [? _]%andb_true_iff]%andb_true_iff.
Qed.

(** X12. The title filter misses no literal occurrence within its limits:
    when the pattern [%query%] is within the pattern limit of the engine
    and the title of a row holds no U+0000, a row whose title holds the
    query as it is written (wild card characters included) is among the
    rows the query selects. *)
Theorem apply_filters_literal query (rows : list Project) r :
  r ∈ rows →
  utf8_bytes (like_pattern query) <= SQLITE_MAX_LIKE_PATTERN_LENGTH →
  nul_free (title r) = true →
  contains query (title r) = true →
  ∃ sel, apply_filters (Some query) None rows = Ok sel ∧ r ∈ sel.
Proof.
  intros Hr Hfit Hnul Hc.
  assert (pattern_bytes (Some query) <= SQLITE_MAX_LIKE_PATTERN_LENGTH) as Hpb.
  { unfold pattern_bytes. destruct (truthy_str query); [done |].
    unfold SQLITE_MAX_LIKE_PATTERN_LENGTH. lia. }
  rewrite apply_filters_spec by done.
  rewrite !decide_False
    by (unfold SQLITE_MAX_LENGTH, SQLITE_MAX_LIKE_PATTERN_LENGTH in *; lia).
  eexists. split; [done |].
  apply list_elem_of_filter. split; [| done]. split; [done |].
  simpl. rewrite title_test_nul_free by (by eapply contains_nul_free).
  rewrite c_string_nul_free by done.
  by apply like_pattern_literal.
Qed.

Lemma apply_filters_literal_witness :
  row_A ∈ all_rows db_AB
  ∧ utf8_bytes (like_pattern "a P") <= SQLITE_MAX_LIKE_PATTERN_LENGTH
  ∧ nul_free (title row_A) = true
  ∧ contains "a P" (title row_A) = true
  ∧ ∃ sel, apply_filters (Some "a P") None (all_rows db_AB) = Ok sel
           ∧ row_A ∈ sel.
Proof.
  assert (row_A ∈ all_rows db_AB) as Hin.
  { apply elem_of_all_rows. exists "p1". reflexivity. }
  assert (utf8_bytes (like_pattern "a P") <= SQLITE_MAX_LIKE_PATTERN_LENGTH)
    as Hfit by (vm_compute; discriminate).
  split; [exact Hin |]. split; [exact Hfit |].
  split; [reflexivity |]. split; [reflexivity |].
  exact (apply_filters_literal "a P" (all_rows db_AB) row_A Hin Hfit
           eq_refl eq_refl).
Defined.

(** ** Normalization *)

Lemma normalize_steps_twice (m : gmap string (option string)) :
  normalize_steps (normalize_steps m) = normalize_steps m.
Proof.
  apply map_eq. intros k. rewrite !normalize_steps_lookup. by case_decide.
Qed.

(** X13. Normalizing twice is normalizing once; the keys of the result are
    the keys of the input that are slot names; and an input is left as it
    is exactly when all its keys are slot names. *)
Theorem normalize_steps_idempotent (m : gmap string (option string)) :
  normalize_steps (normalize_steps m) = normalize_steps m
  ∧ dom (normalize_steps m) = dom m ∩ allowed
  ∧ (normalize_steps m = m ↔ dom m ⊆ allowed).
Proof.
  split; [| split].
  - apply normalize_steps_twice.
  - apply set_eq. intros k.
    rewrite elem_of_intersection, !elem_of_dom, normalize_steps_lookup.
    case_decide; [tauto |]. split; [by intros [? ?] | tauto].
  - split.
    + intros Heq k [v Hk]%elem_of_dom. rewrite <- Heq in Hk.
      by apply normalize_steps_keys in Hk.
    + intros Hsub. apply map_eq. intros k. rewrite normalize_steps_lookup.
      case_decide as Hk; [done |].
      destruct (m !! k) as [v|] eqn:E; [| done].
      exfalso. apply Hk, Hsub, elem_of_dom. eauto.
Qed.

(** X14. Unknown keys are inert: an update whose [steps] carry unknown
    keys has the outcome and leaves the table of the update with the
    normalized [steps]. *)
Theorem update_project_steps_normalized pid now last steps db :
  update_project_steps pid now
    (mkUpdateProjectStepsRequest last (Some steps)) db
  = update_project_steps pid now
      (mkUpdateProjectStepsRequest last (Some (normalize_steps steps))) db.
Proof.
  unfold update_project_steps, UpdateProjectStepsRequest_valid. simpl.
  destruct (match last with
            | Some n => (0 <=? n) && (n <=? 5) | None => true end);
    simpl; [| done].
  destruct (db !! pid) as [p|]; [| done].
  do 2 f_equal. apply Project_ext.
  - destruct (patch_row_header now
                (mkUpdateProjectStepsRequest last (Some steps)) p)
      as (E1 & E2 & E3 & E4 & E5 & E6 & E7).
    destruct (patch_row_header now
                (mkUpdateProjectStepsRequest last
                   (Some (normalize_steps steps))) p)
      as (F1 & F2 & F3 & F4 & F5 & F6 & F7).
    unfold same_header.
    rewrite E1, E2, E3, E4, E5, E6, E7, F1, F2, F3, F4, F5, F6, F7.
    done.
  - intros k. rewrite !patch_row_steps. simpl.
    by rewrite normalize_steps_twice.
Qed.

(** * The clients service and its loader *)

Lemma sqlite_integer_range (n : Z) :
  0 <= n < 2 ^ 63 → sqlite_integer n = true.
Proof.
  intros Hn. unfold sqlite_integer.
  apply andb_true_iff. split; [apply Z.leb_le | apply Z.ltb_lt]; lia.
Qed.

Lemma sql_limit_offset_nonneg {A} (limit offset : Z) (rows : list A) :
  0 <= limit →
  sql_limit_offset limit offset rows
  = take (Z.to_nat limit) (drop (Z.to_nat offset) rows).
Proof.
  intros Hl. unfold sql_limit_offset.
  by rewrite (proj2 (Z.ltb_ge limit 0)).
Qed.

(** X15. A page of [read_all_clients]: with [skip] and [limit] not
    negative, the call returns [limit] rows, or as many as the table has
    left after [skip] rows, and the row at position [i] of the page is the
    row at position [skip + i] of the table. *)
Theorem read_all_clients_page {A} (skip limit : Z) (clients : list A) :
  0 <= skip < 2 ^ 63 →
  0 <= limit < 2 ^ 63 →
  ∃ page,
    read_all_clients skip limit clients = Some page
    ∧ length page
      = Nat.min (Z.to_nat limit) (length clients - Z.to_nat skip)%nat
    ∧ (∀ i, (i < Z.to_nat limit)%nat →
            page !! i = clients !! (Z.to_nat skip + i)%nat).
Proof.
  intros Hs Hl. unfold read_all_clients.
  rewrite !sqlite_integer_range by done. simpl.
  rewrite sql_limit_offset_nonneg by lia.
  eexists. split; [done |]. split.
  - by rewrite length_take, length_drop.
  - intros i Hi. by rewrite lookup_take_lt, lookup_drop.
Qed.

Lemma read_all_clients_page_witness :
  ∃ page,
    read_all_clients 1 2 csv_rows = Some page
    ∧ length page = Nat.min (Z.to_nat 2) (length csv_rows - Z.to_nat 1)%nat
    ∧ (∀ i, (i < Z.to_nat 2)%nat →
            page !! i = csv_rows !! (Z.to_nat 1 + i)%nat).
Proof. apply (read_all_clients_page 1 2 csv_rows); lia. Defined.

(** X16. Pages that follow each other join: the page of [l1] rows at
    [skip] followed by the page of [l2] rows at [skip + l1] is the page of
    [l1 + l2] rows at [skip]. *)
Theorem read_all_clients_pages_join {A} (skip l1 l2 : Z) (clients : list A) :
  0 <= skip → 0 <= l1 → 0 <= l2 →
  skip + l1 < 2 ^ 63 → l1 + l2 < 2 ^ 63 →
  ∃ page1 page2,
    read_all_clients skip l1 clients = Some page1
    ∧ read_all_clients (skip + l1) l2 clients = Some page2
    ∧ read_all_clients skip (l1 + l2) clients = Some (page1 ++ page2).
Proof.
  intros Hs H1 H2 Hb1 Hb2. unfold read_all_clients.
  rewrite !sqlite_integer_range by lia. simpl.
  rewrite !sql_limit_offset_nonneg by lia.
  eexists _, _. split; [done |]. split; [done |]. f_equal.
  rewrite (Z2Nat.inj_add skip l1), (Z2Nat.inj_add l1 l2) by lia.
  rewrite <- drop_drop. symmetry. apply take_take_drop.
Qed.

Lemma read_all_clients_pages_join_witness :
  ∃ page1 page2,
    read_all_clients 1 2 csv_rows = Some page1
    ∧ read_all_clients (1 + 2) 1 csv_rows = Some page2
    ∧ read_all_clients 1 (2 + 1) csv_rows = Some (page1 ++ page2).
Proof. apply (read_all_clients_pages_join 1 2 1 csv_rows); lia. Defined.

(** X17. When [read_all_clients] hands out the whole table: no bound is
    declared on [skip] and [limit], and the call returns every row of a
    table that is not empty exactly when [skip] is not positive and
    [limit] is negative or at least the number of rows. *)
Theorem read_all_clients_whole_table {A} (skip limit : Z) (clients : list A) :
  sqlite_integer skip = true →
  sqlite_integer limit = true →
  clients ≠ [] →
  (read_all_clients skip limit clients = Some clients ↔
   skip <= 0 ∧ (limit < 0 ∨ Z.of_nat (length clients) <= limit)).
Proof.
  intros Hs Hl Hne. unfold read_all_clients, sql_limit_offset.
  rewrite Hs, Hl. simpl.
  assert (0 < length clients)%nat as Hlen.
  { destruct clients; [done | simpl; lia]. }
  split.
  - intros [= Heq]. apply (f_equal length) in Heq.
    destruct (limit <? 0) eqn:E.
    + apply Z.ltb_lt in E. rewrite length_drop in Heq. lia.
    + apply Z.ltb_ge in E. rewrite length_take, length_drop in Heq. lia.
  - intros [Hskip Hlim].
    replace (Z.to_nat skip) with 0%nat by lia. rewrite drop_0.
    destruct (limit <? 0) eqn:E; [done |].
    apply Z.ltb_ge in E. rewrite take_ge by lia. done.
Qed.

Lemma read_all_clients_whole_table_witness :
  sqlite_integer (-3) = true
  ∧ sqlite_integer (-1) = true
  ∧ csv_rows ≠ []
  ∧ read_all_clients (-3) (-1) csv_rows = Some csv_rows.
Proof.
  assert (csv_rows ≠ []) as Hne by discriminate.
  split; [reflexivity |]. split; [reflexivity |]. split; [exact Hne |].
  apply (read_all_clients_whole_table (-3) (-1) csv_rows eq_refl eq_refl Hne).
  lia.
Defined.

(** ** The loader *)

Lemma load_clients_some {A} (accepts : list string → list (Z * A) → bool)
    (columns : list string) (rows : list A) (old table : list (Z * A)) :
  load_clients accepts columns rows old = Some table ↔
  ("id" ∉ columns)
  ∧ accepts ("id" :: columns) table = true
  ∧ table = zip (Z.of_nat <$> seq 1 (length rows)) rows.
Proof.
  unfold load_clients, insert_id_column.
  destruct (decide ("id" ∈ columns)) as [Hin | Hnot].
  - split; [discriminate | intros [? _]; done].
  - destruct (accepts ("id" :: columns)
                (zip (Z.of_nat <$> seq 1 (length rows)) rows)) eqn:E.
    + split; [intros [= <-]; done | intros (_ & _ & ->); done].
    + split; [discriminate | intros (_ & Hacc & ->); congruence].
Qed.

(** X18. The loader numbers the rows of the file from 1 on, in their
    order: whenever it writes a table, the file has no column [id], the
    table has as many rows as the file, the row at position [i] is the row
    of the file at that position with the id [i + 1], no id occurs twice,
    and the table without its id column is the file.  A file that has a
    column [id] is refused, and so is a frame that the engine does not
    take; the table that was there plays no part. *)
Theorem load_clients_ids {A} (accepts : list string → list (Z * A) → bool)
    (columns : list string) (rows : list A) (old : list (Z * A)) :
  ("id" ∈ columns → load_clients accepts columns rows old = None)
  ∧ (∀ table,
       load_clients accepts columns rows old = Some table →
       ("id" ∉ columns)
       ∧ accepts ("id" :: columns) table = true
       ∧ length table = length rows
       ∧ (∀ i row, rows !! i = Some row →
                   table !! i = Some (Z.of_nat i + 1, row))
       ∧ NoDup table.*1
       ∧ table.*2 = rows)
  ∧ (∀ old', load_clients accepts columns rows old'
             = load_clients accepts columns rows old).
Proof.
  split; [| split].
  - intros Hin. unfold load_clients, insert_id_column.
    by rewrite decide_True.
  - intros table (Hid & Hacc & ->)%load_clients_some.
    assert (length (Z.of_nat <$> seq 1 (length rows)) = length rows) as Hlen
      by (by rewrite length_fmap, length_seq).
    split; [done |]. split; [done |]. split_and!.
    + rewrite length_zip_with, Hlen. lia.
    + intros i row Hi. rewrite lookup_zip_with.
      rewrite list_lookup_fmap, Hi.
      rewrite lookup_seq_lt by (by eapply lookup_lt_Some).
      simpl. do 2 f_equal. lia.
    + rewrite fst_zip by lia.
      apply NoDup_fmap_2; [apply Nat2Z.inj' | apply NoDup_seq].
    + apply snd_zip. lia.
  - done.
Qed.

Lemma load_clients_ids_witness :
  ∃ table,
    load_clients (λ _ _, true) csv_columns csv_rows [] = Some table
    ∧ length table = length csv_rows
    ∧ table.*2 = csv_rows.
Proof.
  assert (load_clients (λ _ _, true) csv_columns csv_rows []
          = Some [(1, "ann"); (2, "bob"); (3, "cyd"); (4, "dan"); (5, "eve")])
    as Hload by reflexivity.
  destruct (proj1 (proj2 (load_clients_ids (λ _ _, true) csv_columns
                            csv_rows [])) _ Hload)
    as (_ & _ & H2 & _ & _ & H5).
  eexists. split; [exact Hload |]. split; [exact H2 | exact H5].
Defined.

(** X19. Pages of a loaded table: on a table the loader wrote, the row at
    position [i] of the page at a [skip] that is not negative has the id
    [skip + i + 1] and is the row of the file at position [skip + i],
    whatever the [limit]. *)
Theorem read_loaded_clients {A} (accepts : list string → list (Z * A) → bool)
    (columns : list string) (rows : list A)
    (old : list (Z * A)) (skip limit : Z) table page :
  0 <= skip →
  load_clients accepts columns rows old = Some table →
  read_all_clients skip limit table = Some page →
  ∀ i id row, page !! i = Some (id, row) →
    id = skip + Z.of_nat i + 1
    ∧ rows !! (Z.to_nat skip + i)%nat = Some row.
Proof.
  intros Hs (_ & _ & ->)%load_clients_some Hread i id row Hi.
  unfold read_all_clients in Hread.
  destruct (sqlite_integer skip && sqlite_integer limit); [| discriminate].
  injection Hread as <-.
  assert (zip (Z.of_nat <$> seq 1 (length rows)) rows
            !! (Z.to_nat skip + i)%nat = Some (id, row)) as Hz.
  { unfold sql_limit_offset in Hi. destruct (limit <? 0).
    - by rewrite lookup_drop in Hi.
    - rewrite lookup_take in Hi. case_decide; [| discriminate].
      by rewrite lookup_drop in Hi. }
  rewrite lookup_zip_with, list_lookup_fmap in Hz.
  destruct (seq 1 (length rows) !! (Z.to_nat skip + i)%nat) as [m|] eqn:En;
    [| discriminate].
  apply lookup_seq in En as [-> _]. simpl in Hz.
  destruct (rows !! (Z.to_nat skip + i)%nat) as [r|]; [| discriminate].
  injection Hz as <- <-. split; [lia | done].
Qed.

Lemma read_loaded_clients_witness :
  ∃ table page,
    load_clients (λ _ _, true) csv_columns csv_rows [] = Some table
    ∧ read_all_clients 2 (-1) table = Some page
    ∧ page !! 1%nat = Some (4, "dan")
    ∧ 4 = 2 + Z.of_nat 1 + 1
    ∧ csv_rows !! (Z.to_nat 2 + 1)%nat = Some "dan".
Proof.
  set (table := [(1, "ann"); (2, "bob"); (3, "cyd"); (4, "dan"); (5, "eve")]).
  set (page := [(3, "cyd"); (4, "dan"); (5, "eve")]).
  assert (load_clients (λ _ _, true) csv_columns csv_rows [] = Some table)
    as Hload by reflexivity.
  assert (read_all_clients 2 (-1) table = Some page) as Hread by reflexivity.
  assert (page !! 1%nat = Some (4, "dan")) as Hi by reflexivity.
  exists table, page.
  split; [exact Hload |]. split; [exact Hread |]. split; [exact Hi |].
  apply (read_loaded_clients (λ _ _, true) csv_columns csv_rows [] 2 (-1)
           table page ltac:(lia) Hload Hread 1%nat 4 "dan" Hi).
Defined.
